(** * Chirp backend: a shallow embedding of the route handlers

    The development models the Express/Mongoose route handlers of the
    backend (users, tweets and search routers) as functions over an explicit
    database state, and proves the properties of the social-graph and feed
    logic stated in the specification.

    Conventions of the embedding:
    - an [ObjectId] is a natural number and [a.toString() === b.toString()]
      is equality; a route parameter [:id] denotes the ObjectId it casts to,
      except in the follow route, which also compares the parameter as a
      string with the rendering of an ObjectId (see [RouteParam]);
    - a collection is a finite map from [_id] to document (MongoDB keeps
      [_id] unique); a query result is a list of [(_id, document)] pairs;
    - a JavaScript string is a [string] whose characters stand for UTF-16
      code units below 256, so [s.length] is [String.length s];
    - a handler returns the new database and the JSON response; the
      [catch] branch of every handler answers 500 "Server error". *)

From stdpp Require Import gmap strings list sorting fin_maps.
From Stdlib Require Import Ascii.

Abbreviation ObjectId := nat (only parsing).

(** ** JavaScript strings *)

Module JsString.

(** White space and line terminators removed by [String.prototype.trim],
    restricted to code units below 256: TAB, LF, VT, FF, CR, SP, NBSP. *)
Definition is_whitespace (c : ascii) : bool :=
  let n := nat_of_ascii c in
  ((9 <=? n) && (n <=? 13)) || (n =? 32) || (n =? 160).

Definition is_empty (s : string) : bool :=
  match s with EmptyString => true | String _ _ => false end.

Fixpoint trimStart (s : string) : string :=
  match s with
  | EmptyString => EmptyString
  | String c s' => if is_whitespace c then trimStart s' else s
  end.

Fixpoint trimEnd (s : string) : string :=
  match s with
  | EmptyString => EmptyString
  | String c s' =>
      let r := trimEnd s' in
      if is_whitespace c && is_empty r then EmptyString else String c r
  end.

Definition trim (s : string) : string := trimEnd (trimStart s).

(** [s] is truthy, that is [!s] is false, exactly when it is not empty. *)
Definition truthy (s : string) : bool := negb (is_empty s).

(** [n] copies of the character [c]. *)
Fixpoint replicate (n : nat) (c : ascii) : string :=
  match n with
  | 0 => EmptyString
  | S n' => String c (replicate n' c)
  end.

(** ASCII case folding, as used by a case-insensitive match. *)
Definition to_lower (c : ascii) : ascii :=
  let n := nat_of_ascii c in
  if (65 <=? n) && (n <=? 90) then ascii_of_nat (n + 32) else c.

Fixpoint lower (s : string) : string :=
  match s with
  | EmptyString => EmptyString
  | String c s' => String (to_lower c) (lower s')
  end.

End JsString.

(** ** Regular expressions

    The search route hands the query string to MongoDB as a [$regex] with
    option [i].  The database engine is not part of the sources; the part
    of its pattern language modelled here is: ordinary ASCII characters, a
    backslash followed by an ASCII character that is neither a letter nor
    a digit (that character, taken literally), the dot, groups in
    parentheses, alternation with [|], and the quantifiers [*], [+] and
    [?], each optionally followed by [?] (the lazy variant, which has a
    match in the same strings).  Every other use of a metacharacter
    (anchors, classes, braces, escapes by a letter or a digit, a group
    whose opening parenthesis is followed by a question mark or a star,
    possessive or stacked quantifiers), a NUL and a character above 127
    are outside the modelled part: [compile] answers [Unmodelled], and
    what the engine does of such a query is a parameter of the search
    route. *)

Module Regex.

Inductive re : Type :=
| Void
| Eps
| Lit (c : ascii)
| AnyChar
| Seq (r1 r2 : re)
| Alt (r1 r2 : re)
| Star (r : re).

Inductive quant : Type := QStar | QPlus | QOpt.

Definition quantified (q : quant) (r : re) : re :=
  match q with
  | QStar => Star r
  | QPlus => Seq r (Star r)
  | QOpt => Alt r Eps
  end.

(** *** What a pattern matches *)

(** One character of the pattern against one character of the content,
    with option [i]: a literal matches up to ASCII case, the dot matches
    every character but a line feed. *)
Definition lit_matches (l c : ascii) : bool :=
  bool_decide (JsString.to_lower l = JsString.to_lower c).

Definition any_matches (c : ascii) : bool := negb (nat_of_ascii c =? 10).

(** [matches r m]: the whole of [m] is a match of [r]. *)
Inductive matches : re → string → Prop :=
| matches_Eps : matches Eps EmptyString
| matches_Lit l c :
    lit_matches l c = true → matches (Lit l) (String c EmptyString)
| matches_AnyChar c :
    any_matches c = true → matches AnyChar (String c EmptyString)
| matches_Seq r1 r2 m1 m2 :
    matches r1 m1 → matches r2 m2 → matches (Seq r1 r2) (m1 +:+ m2)
| matches_Alt_l r1 r2 m : matches r1 m → matches (Alt r1 r2) m
| matches_Alt_r r1 r2 m : matches r2 m → matches (Alt r1 r2) m
| matches_Star_nil r : matches (Star r) EmptyString
| matches_Star_cons r m1 m2 :
    matches r m1 → matches (Star r) m2 → matches (Star r) (m1 +:+ m2).


(** *** Deciding the search, by derivatives *)

(** The empty string is a match of [r]. *)
Fixpoint nullable (r : re) : bool :=
  match r with
  | Void | Lit _ | AnyChar => false
  | Eps | Star _ => true
  | Seq r1 r2 => nullable r1 && nullable r2
  | Alt r1 r2 => nullable r1 || nullable r2
  end.

(** The pattern for what may follow [c] in a match of [r]. *)
Fixpoint deriv (c : ascii) (r : re) : re :=
  match r with
  | Void | Eps => Void
  | Lit l => if lit_matches l c then Eps else Void
  | AnyChar => if any_matches c then Eps else Void
  | Seq r1 r2 =>
      if nullable r1 then Alt (Seq (deriv c r1) r2) (deriv c r2)
      else Seq (deriv c r1) r2
  | Alt r1 r2 => Alt (deriv c r1) (deriv c r2)
  | Star r1 => Seq (deriv c r1) (Star r1)
  end.

(** Some prefix of [s] is a match of [r]. *)
Fixpoint match_here (r : re) (s : string) : bool :=
  nullable r ||
  match s with
  | EmptyString => false
  | String c s' => match_here (deriv c r) s'
  end.

(** The pattern has a match at some position of [s]. *)
Fixpoint search (r : re) (s : string) : bool :=
  match_here r s ||
  match s with
  | EmptyString => false
  | String _ s' => search r s'
  end.

(** *** Reading a pattern *)

Definition is_ascii (c : ascii) : bool :=
  let n := nat_of_ascii c in (1 <=? n) && (n <=? 127).

Definition is_alnum (c : ascii) : bool :=
  let n := nat_of_ascii c in
  ((48 <=? n) && (n <=? 57)) || ((65 <=? n) && (n <=? 90))
  || ((97 <=? n) && (n <=? 122)).

Definition is_meta (c : ascii) : bool :=
  bool_decide (c ∈ ["\"; "^"; "$"; "."; "["; "]"; "|"; "("; ")"; "?"; "*";
                    "+"; "{"; "}"]%char).

(** An ASCII character that stands for itself in a pattern. *)
Definition ordinary (c : ascii) : bool := is_ascii c && negb (is_meta c).

Inductive token : Type :=
| TChar (c : ascii)
| TDot
| TOpen
| TClose
| TBar
| TQuant (q : quant)
| TBackslashAtEnd.

(** The token of a character that is not a backslash; [None] for the
    characters that are not modelled. *)
Definition lex_char (c : ascii) : option token :=
  if ordinary c then Some (TChar c)
  else if bool_decide (c = "."%char) then Some TDot
  else if bool_decide (c = "("%char) then Some TOpen
  else if bool_decide (c = ")"%char) then Some TClose
  else if bool_decide (c = "|"%char) then Some TBar
  else if bool_decide (c = "*"%char) then Some (TQuant QStar)
  else if bool_decide (c = "+"%char) then Some (TQuant QPlus)
  else if bool_decide (c = "?"%char) then Some (TQuant QOpt)
  else None.

Fixpoint lex (q : string) : option (list token) :=
  match q with
  | EmptyString => Some []
  | String c q' =>
      if bool_decide (c = "\"%char) then
        match q' with
        | EmptyString => Some [TBackslashAtEnd]
        | String e q'' =>
            if is_ascii e && negb (is_alnum e)
            then cons (TChar e) <$> lex q''
            else None
        end
      else
        match lex_char c, lex q' with
        | Some t, Some ts => Some (t :: ts)
        | _, _ => None
        end
  end.

(** The outcome of the compilation of a query: a pattern, a pattern that
    the engine rejects, or a query outside the modelled part. *)
Inductive compiled : Type :=
| Pattern (r : re)
| Invalid
| Unmodelled.

(** What comes just before the next token: the start of a branch, an
    opening parenthesis, an item that a quantifier can follow, a
    quantified item, a quantified item marked lazy. *)
Inductive last_item : Type := Nothing | Opened | Item | Repeated | Lazy.

(** A group being read: the alternatives read so far and the items of the
    current alternative, the latest first. *)
Record frame : Type := Frame {
  alternatives : option re;
  items : list re
}.

Fixpoint sequence (l : list re) : re :=
  match l with
  | [] => Eps
  | r :: l' => Seq r (sequence l')
  end.

Definition close (f : frame) : re :=
  match alternatives f with
  | None => sequence (rev (items f))
  | Some a => Alt a (sequence (rev (items f)))
  end.

Definition push (r : re) (f : frame) : frame :=
  Frame (alternatives f) (r :: items f).

(** The parser: [f] is the innermost open group and [stack] the groups
    around it.  A quantifier with nothing to repeat, an unmatched
    parenthesis and a backslash at the end are errors of the pattern. *)
Fixpoint parse (ts : list token) (last : last_item) (f : frame)
    (stack : list frame) : compiled :=
  match ts with
  | [] =>
      match stack with
      | [] => Pattern (close f)
      | _ :: _ => Invalid
      end
  | TChar c :: ts' => parse ts' Item (push (Lit c) f) stack
  | TDot :: ts' => parse ts' Item (push AnyChar f) stack
  | TOpen :: ts' => parse ts' Opened (Frame None []) (f :: stack)
  | TClose :: ts' =>
      match stack with
      | [] => Invalid
      | g :: stack' => parse ts' Item (push (close f) g) stack'
      end
  | TBar :: ts' => parse ts' Nothing (Frame (Some (close f)) []) stack
  | TQuant q :: ts' =>
      match last, items f with
      | Item, r :: rs =>
          parse ts' Repeated (Frame (alternatives f) (quantified q r :: rs))
            stack
      | Repeated, _ =>
          match q with
          | QOpt => parse ts' Lazy f stack
          | _ => Unmodelled
          end
      | Nothing, _ => Invalid
      | Opened, _ =>
          match q with
          | QPlus => Invalid
          | _ => Unmodelled
          end
      | _, _ => Unmodelled
      end
  | TBackslashAtEnd :: _ => Invalid
  end.

Definition compile (q : string) : compiled :=
  match lex q with
  | None => Unmodelled
  | Some ts => parse ts Nothing (Frame None []) []
  end.

End Regex.

(** ** Schemas *)

Module User.

(** Modelled from the spec: the user schema ([models/User.js]), whose
    fields are those the route handlers read and write. *)
Record doc : Type := Doc {
  name : string;
  username : string;
  email : string;
  password : string;
  bio : string;
  location : string;
  website : string;
  profileImage : string;
  followers : list ObjectId;
  following : list ObjectId;
  createdAt : nat
}.

Definition set_followers (l : list ObjectId) (u : doc) : doc :=
  Doc (name u) (username u) (email u) (password u) (bio u) (location u)
      (website u) (profileImage u) l (following u) (createdAt u).

Definition set_following (l : list ObjectId) (u : doc) : doc :=
  Doc (name u) (username u) (email u) (password u) (bio u) (location u)
      (website u) (profileImage u) (followers u) l (createdAt u).

End User.

(** The stored fields of a tweet that the routes read, write or return.
    The schema option [timestamps: true] adds [createdAt] and [updatedAt];
    [createdAt] is kept here, [updatedAt], which [save] rewrites on every
    write and which no route reads or returns, is left out.  An equality
    between two documents or two collections below is therefore an
    equality of these fields, and says nothing of [updatedAt]. *)
Module Tweet.

Record doc : Type := Doc {
  user : ObjectId;
  content : string;
  likes : list ObjectId;
  retweets : list ObjectId;
  replyTo : option ObjectId;
  retweetData : option ObjectId;
  media : list string;
  createdAt : nat
}.

Definition set_likes (l : list ObjectId) (t : doc) : doc :=
  Doc (user t) (content t) l (retweets t) (replyTo t) (retweetData t)
      (media t) (createdAt t).

Definition set_retweets (l : list ObjectId) (t : doc) : doc :=
  Doc (user t) (content t) (likes t) l (replyTo t) (retweetData t)
      (media t) (createdAt t).

(** Schema validation run by [save] on a new document: [content] is
    required (a required string must not be empty) and [maxlength: 280]. *)
Definition validate (t : doc) : bool :=
  JsString.truthy (content t) && (String.length (content t) <=? 280).

End Tweet.

Module Notification.

Inductive kind : Type := like | retweet | reply | follow | mention.

Record doc : Type := Doc {
  recipient : ObjectId;
  sender : ObjectId;
  type : kind;
  tweet : option ObjectId;
  read : bool;
  message : string
}.

End Notification.

(** ** The database *)

Record Db : Type := MkDb {
  users : gmap ObjectId User.doc;
  tweets : gmap ObjectId Tweet.doc;
  notifications : list Notification.doc
}.

Definition empty_db : Db := MkDb ∅ ∅ [].

Definition with_users (m : gmap ObjectId User.doc) (db : Db) : Db :=
  MkDb m (tweets db) (notifications db).

Definition with_tweets (m : gmap ObjectId Tweet.doc) (db : Db) : Db :=
  MkDb (users db) m (notifications db).

Definition with_notifications (l : list Notification.doc) (db : Db) : Db :=
  MkDb (users db) (tweets db) l.

(** [array.includes(id)] on an array of ObjectIds. *)
Definition includes (l : list ObjectId) (id : ObjectId) : bool :=
  bool_decide (id ∈ l).

(** [array.filter(x => x.toString() !== id.toString())]. *)
Definition without (id : ObjectId) (l : list ObjectId) : list ObjectId :=
  filter (λ x, x ≠ id) l.

(** *** Queries *)

Definition User_findById (db : Db) (id : ObjectId) : option User.doc :=
  users db !! id.

(** [User.findOne({ username })]. *)
Definition User_findOne (db : Db) (uname : string)
  : option (ObjectId * User.doc) :=
  snd <$> list_find (λ d, User.username d.2 = uname) (map_to_list (users db)).

Definition User_save (db : Db) (id : ObjectId) (u : User.doc) : Db :=
  with_users (<[id := u]> (users db)) db.

Definition Tweet_findById (db : Db) (id : ObjectId) : option Tweet.doc :=
  tweets db !! id.

(** [Tweet.find(cond)]: the documents satisfying the condition. *)
Definition Tweet_find (cond : ObjectId * Tweet.doc → bool) (db : Db)
  : list (ObjectId * Tweet.doc) :=
  filter (λ d, cond d = true) (map_to_list (tweets db)).

Definition Tweet_countDocuments (cond : ObjectId * Tweet.doc → bool) (db : Db)
  : nat :=
  length (Tweet_find cond db).

Definition Tweet_save (db : Db) (id : ObjectId) (t : Tweet.doc) : Db :=
  with_tweets (<[id := t]> (tweets db)) db.

(** [Tweet.deleteMany(cond)]. *)
Definition Tweet_deleteMany (cond : ObjectId * Tweet.doc → bool) (db : Db)
  : Db :=
  with_tweets (filter (λ d, cond d = false) (tweets db)) db.

Definition Notification_create (db : Db) (n : Notification.doc) : Db :=
  with_notifications (notifications db ++ [n]) db.

Definition Notification_deleteMany (cond : Notification.doc → bool) (db : Db)
  : Db :=
  with_notifications (filter (λ n, cond n = false) (notifications db)) db.

(** [.sort({ createdAt: -1 })]: newest first. *)
Definition newer_first (x y : ObjectId * Tweet.doc) : Prop :=
  Tweet.createdAt y.2 ≤ Tweet.createdAt x.2.

#[global] Instance newer_first_dec : RelDecision newer_first.
Proof. intros x y. unfold newer_first. apply _. Defined.

Definition sort_createdAt_desc (l : list (ObjectId * Tweet.doc))
  : list (ObjectId * Tweet.doc) :=
  merge_sort newer_first l.

(** [.limit(n)]. *)
Definition limit {A : Type} (n : nat) (l : list A) : list A := take n l.

(** ** Requests and responses *)

(** [req.user], set by [protect]: the authenticated user's [_id] and
    document. *)
Record ReqUser : Type := MkReqUser {
  _id : ObjectId;
  profile : User.doc
}.

(** A reference populated with [name username profileImage]. *)
Record PopulatedUser : Type := MkPopulatedUser {
  p_id : ObjectId;
  p_name : string;
  p_username : string;
  p_profileImage : string
}.

(** A tweet formatted for a response.  [f_replyTo] is the [_id] of the
    [replyTo] entry of the object when it has one that is not null. *)
Record Formatted : Type := MkFormatted {
  f_id : ObjectId;
  f_content : string;
  f_user : option PopulatedUser;
  f_createdAt : nat;
  likeCount : nat;
  retweetCount : nat;
  replyCount : nat;
  isLiked : bool;
  isRetweeted : bool;
  f_replyTo : option ObjectId
}.

Definition set_replyCount (n : nat) (f : Formatted) : Formatted :=
  MkFormatted (f_id f) (f_content f) (f_user f) (f_createdAt f) (likeCount f)
              (retweetCount f) n (isLiked f) (isRetweeted f) (f_replyTo f).

(** The payload of the profile route; [isFollowing] is present only when
    [req.user] is. *)
Record UserData : Type := MkUserData {
  d_id : ObjectId;
  d_name : string;
  d_username : string;
  d_email : string;
  d_bio : string;
  d_location : string;
  d_website : string;
  d_profileImage : string;
  d_followers : nat;
  d_following : nat;
  d_createdAt : nat;
  tweetsCount : nat;
  isFollowing : option bool
}.

Inductive Body : Type :=
| Message (message : string)
| TweetList (l : list Formatted)
| OneTweet (t : Formatted)
| Profile (d : UserData)
| Account (id : ObjectId)
    (name username email bio location website profileImage : string).

Record Response : Type := Json {
  status : nat;
  body : Body
}.

Definition server_error : Response := Json 500 (Message "Server error").

(** ** Middleware *)

(** [protect]: [token] is the user id carried by a verified bearer token,
    [None] when the header is missing or the token does not verify. *)
Definition protect (db : Db) (token : option ObjectId)
    (next : ReqUser → Db * Response) : Db * Response :=
  match token with
  | None => (db, Json 401 (Message "Not authorized to access this route"))
  | Some id =>
      match User_findById db id with
      | None => (db, Json 401 (Message "User not found"))
      | Some u => next (MkReqUser id u)
      end
  end.

(** ** Users router *)

(** GET /api/users/:username *)
Definition getUserProfile (db : Db) (req_user : option ReqUser)
    (uname : string) : Response :=
  match User_findOne db uname with
  | None => Json 404 (Message "User not found")
  | Some (uid, user) =>
      let tweetsCount :=
        Tweet_countDocuments (λ d, bool_decide (Tweet.user d.2 = uid)) db in
      Json 200 (Profile (MkUserData
        uid (User.name user) (User.username user) (User.email user)
        (User.bio user) (User.location user) (User.website user)
        (User.profileImage user)
        (length (User.followers user)) (length (User.following user))
        (User.createdAt user) tweetsCount
        ((λ r, includes (User.followers user) (_id r)) <$> req_user)))
  end.

(** The parameter [:id] of a route is a string.  A query casts it to an
    ObjectId ([casts_to]); several strings cast to the same ObjectId, the
    hexadecimal digits being accepted in upper case too, and [toString]
    renders an ObjectId as one of them only, in lower case ([canonical]
    tells that the parameter is that rendering). *)
Record RouteParam : Type := MkRouteParam {
  casts_to : ObjectId;
  canonical : bool
}.

(** [a.toString() === req.params.id]. *)
Definition toString_is (a : ObjectId) (param : RouteParam) : bool :=
  canonical param && bool_decide (a = casts_to param).

(** POST /api/users/:id/follow *)
Definition followRoute (db : Db) (req_user : ReqUser) (param : RouteParam)
  : Db * Response :=
  let id := casts_to param in
  match User_findById db id with
  | None => (db, Json 404 (Message "User not found"))
  | Some userToFollow =>
      if includes (User.followers userToFollow) (_id req_user) then
        (db, Json 400 (Message "Already following this user"))
      else if toString_is (_id req_user) param then
        (db, Json 400 (Message "You cannot follow yourself"))
      else
        let userToFollow :=
          User.set_followers
            (User.followers userToFollow ++ [_id req_user]) userToFollow in
        let db := User_save db id userToFollow in
        match User_findById db (_id req_user) with
        | None => (db, server_error)
        | Some currentUser =>
            let currentUser :=
              User.set_following
                (User.following currentUser ++ [id]) currentUser in
            let db := User_save db (_id req_user) currentUser in
            let db := Notification_create db
              (Notification.Doc id (_id req_user) Notification.follow None
                 false
                 (User.name (profile req_user) +:+ " started following you"))
            in
            (db, Json 200 (Message "User followed successfully"))
        end
  end.

(** The follow route with the id of the target in its canonical
    rendering. *)
Definition follow (db : Db) (req_user : ReqUser) (id : ObjectId)
  : Db * Response :=
  followRoute db req_user (MkRouteParam id true).

(** POST /api/users/:id/unfollow *)
Definition unfollow (db : Db) (req_user : ReqUser) (id : ObjectId)
  : Db * Response :=
  match User_findById db id with
  | None => (db, Json 404 (Message "User not found"))
  | Some userToUnfollow =>
      if negb (includes (User.followers userToUnfollow) (_id req_user)) then
        (db, Json 400 (Message "You are not following this user"))
      else
        let userToUnfollow :=
          User.set_followers
            (without (_id req_user) (User.followers userToUnfollow))
            userToUnfollow in
        let db := User_save db id userToUnfollow in
        match User_findById db (_id req_user) with
        | None => (db, server_error)
        | Some currentUser =>
            let currentUser :=
              User.set_following
                (without id (User.following currentUser)) currentUser in
            let db := User_save db (_id req_user) currentUser in
            (db, Json 200 (Message "User unfollowed successfully"))
        end
  end.

(** PUT /api/users/profile; an absent body field is [None]. *)
Definition updateProfile (db : Db) (req_user : ReqUser)
    (name bio location website profileImage : option string)
  : Db * Response :=
  match User_findById db (_id req_user) with
  | None => (db, Json 404 (Message "User not found"))
  | Some user =>
      let user := User.Doc
        (match name with
         | Some n => if JsString.truthy n then n else User.name user
         | None => User.name user
         end)
        (User.username user) (User.email user) (User.password user)
        (default (User.bio user) bio)
        (default (User.location user) location)
        (default (User.website user) website)
        (default (User.profileImage user) profileImage)
        (User.followers user) (User.following user) (User.createdAt user) in
      (User_save db (_id req_user) user,
       Json 200 (Account
         (_id req_user) (User.name user) (User.username user)
         (User.email user) (User.bio user) (User.location user)
         (User.website user) (User.profileImage user)))
  end.

(** ** Tweets router *)

(** [.populate('user', 'name username profileImage')]. *)
Definition populate_user (db : Db) (uid : ObjectId) : option PopulatedUser :=
  (λ u, MkPopulatedUser uid (User.name u) (User.username u)
          (User.profileImage u)) <$> User_findById db uid.

(** [req.user ? array.includes(req.user._id) : false]. *)
Definition viewer_flag (req_user : option ReqUser) (l : list ObjectId)
  : bool :=
  match req_user with
  | Some r => includes l (_id r)
  | None => false
  end.

(** The object built by the [map] callback of a listing route, with
    [replyCount: 0]. *)
Definition format (db : Db) (liked retweeted : Tweet.doc → bool)
    (reply_ref : option ObjectId) (d : ObjectId * Tweet.doc) : Formatted :=
  MkFormatted d.1 (Tweet.content d.2) (populate_user db (Tweet.user d.2))
    (Tweet.createdAt d.2) (length (Tweet.likes d.2))
    (length (Tweet.retweets d.2)) 0 (liked d.2) (retweeted d.2) reply_ref.

(** The loop that fills in [replyCount] with one count query per entry. *)
Definition with_replyCounts (db : Db) (l : list Formatted) : list Formatted :=
  map (λ f,
        set_replyCount
          (Tweet_countDocuments
             (λ d, bool_decide (Tweet.replyTo d.2 = Some (f_id f))) db) f) l.

(** [newTweet.save()] of a new document: validation, then the insert,
    which fails on a duplicate [_id]. *)
Definition Tweet_insert (db : Db) (oid : ObjectId) (t : Tweet.doc)
  : option Db :=
  if Tweet.validate t then
    match tweets db !! oid with
    | None => Some (Tweet_save db oid t)
    | Some _ => None
    end
  else None.

(** POST /api/tweets; [oid] is the ObjectId generated for the new document
    and [now] the time of the save. *)
Definition createPost (db : Db) (req_user : ReqUser)
    (content : option string) (replyTo : option ObjectId)
    (oid : ObjectId) (now : nat) : Db * Response :=
  match content with
  | None => (db, Json 400 (Message "Tweet content is required"))
  | Some content =>
      if negb (JsString.truthy content)
         || JsString.is_empty (JsString.trim content) then
        (db, Json 400 (Message "Tweet content is required"))
      else if 280 <? String.length content then
        (db, Json 400 (Message "Tweet cannot exceed 280 characters"))
      else
        let finish (db : Db) (r : option ObjectId) : Db * Response :=
          let newTweet :=
            Tweet.Doc (_id req_user) content [] [] r None [] now in
          match Tweet_insert db oid newTweet with
          | None => (db, server_error)
          | Some db =>
              (db, Json 201 (OneTweet (MkFormatted
                     oid content (populate_user db (_id req_user)) now
                     0 0 0 false false r)))
          end in
        match replyTo with
        | None => finish db None
        | Some parent =>
            match Tweet_findById db parent with
            | None => (db, Json 404 (Message "Original tweet not found"))
            | Some originalTweet =>
                let db :=
                  if bool_decide (Tweet.user originalTweet ≠ _id req_user)
                  then Notification_create db
                         (Notification.Doc (Tweet.user originalTweet)
                            (_id req_user) Notification.reply (Some oid)
                            false
                            (User.name (profile req_user)
                               +:+ " replied to your chirp"))
                  else db in
                finish db (Some parent)
            end
        end
  end.

(** GET /api/tweets/timeline *)
Definition timeline (db : Db) (req_user : ReqUser) : Response :=
  match User_findById db (_id req_user) with
  | None => server_error
  | Some user =>
      let following := User.following user ++ [_id req_user] in
      let tweets :=
        limit 50 (sort_createdAt_desc (Tweet_find
          (λ d, includes following (Tweet.user d.2)
                && bool_decide (Tweet.replyTo d.2 = None)) db)) in
      let formattedTweets :=
        map (format db (λ t, includes (Tweet.likes t) (_id req_user))
                       (λ t, includes (Tweet.retweets t) (_id req_user))
                       None) tweets in
      Json 200 (TweetList (with_replyCounts db formattedTweets))
  end.

(** GET /api/tweets/explore *)
Definition explore (db : Db) (req_user : option ReqUser) : Response :=
  let tweets :=
    limit 50 (sort_createdAt_desc (Tweet_find
      (λ d, bool_decide (Tweet.replyTo d.2 = None)) db)) in
  let formattedTweets :=
    map (format db (λ t, viewer_flag req_user (Tweet.likes t))
                   (λ t, viewer_flag req_user (Tweet.retweets t))
                   None) tweets in
  Json 200 (TweetList (with_replyCounts db formattedTweets)).

(** GET /api/tweets/:id/replies *)
Definition getReplies (db : Db) (req_user : option ReqUser) (id : ObjectId)
  : Response :=
  let replies :=
    sort_createdAt_desc (Tweet_find
      (λ d, bool_decide (Tweet.replyTo d.2 = Some id)) db) in
  let formattedReplies :=
    map (format db (λ t, viewer_flag req_user (Tweet.likes t))
                   (λ t, viewer_flag req_user (Tweet.retweets t))
                   (Some id)) replies in
  Json 200 (TweetList (with_replyCounts db formattedReplies)).

(** POST /api/tweets/:id/like *)
Definition likeTweet (db : Db) (req_user : ReqUser) (id : ObjectId)
  : Db * Response :=
  match Tweet_findById db id with
  | None => (db, Json 404 (Message "Tweet not found"))
  | Some tweet =>
      if includes (Tweet.likes tweet) (_id req_user) then
        (db, Json 400 (Message "Tweet already liked"))
      else
        let tweet :=
          Tweet.set_likes (Tweet.likes tweet ++ [_id req_user]) tweet in
        let db := Tweet_save db id tweet in
        let db :=
          if bool_decide (Tweet.user tweet ≠ _id req_user)
          then Notification_create db
                 (Notification.Doc (Tweet.user tweet) (_id req_user)
                    Notification.like (Some id) false
                    (User.name (profile req_user) +:+ " liked your chirp"))
          else db in
        (db, Json 200 (Message "Tweet liked successfully"))
  end.

(** POST /api/tweets/:id/unlike *)
Definition unlikeTweet (db : Db) (req_user : ReqUser) (id : ObjectId)
  : Db * Response :=
  match Tweet_findById db id with
  | None => (db, Json 404 (Message "Tweet not found"))
  | Some tweet =>
      if negb (includes (Tweet.likes tweet) (_id req_user)) then
        (db, Json 400 (Message "Tweet not liked"))
      else
        let tweet :=
          Tweet.set_likes (without (_id req_user) (Tweet.likes tweet)) tweet
        in
        (Tweet_save db id tweet,
         Json 200 (Message "Tweet unliked successfully"))
  end.

(** POST /api/tweets/:id/retweet *)
Definition retweetTweet (db : Db) (req_user : ReqUser) (id : ObjectId)
  : Db * Response :=
  match Tweet_findById db id with
  | None => (db, Json 404 (Message "Tweet not found"))
  | Some tweet =>
      if includes (Tweet.retweets tweet) (_id req_user) then
        (db, Json 400 (Message "Tweet already retweeted"))
      else
        let tweet :=
          Tweet.set_retweets (Tweet.retweets tweet ++ [_id req_user]) tweet
        in
        let db := Tweet_save db id tweet in
        let db :=
          if bool_decide (Tweet.user tweet ≠ _id req_user)
          then Notification_create db
                 (Notification.Doc (Tweet.user tweet) (_id req_user)
                    Notification.retweet (Some id) false
                    (User.name (profile req_user)
                       +:+ " retweeted your chirp"))
          else db in
        (db, Json 200 (Message "Tweet retweeted successfully"))
  end.

(** POST /api/tweets/:id/unretweet *)
Definition unretweetTweet (db : Db) (req_user : ReqUser) (id : ObjectId)
  : Db * Response :=
  match Tweet_findById db id with
  | None => (db, Json 404 (Message "Tweet not found"))
  | Some tweet =>
      if negb (includes (Tweet.retweets tweet) (_id req_user)) then
        (db, Json 400 (Message "Tweet not retweeted"))
      else
        let tweet :=
          Tweet.set_retweets
            (without (_id req_user) (Tweet.retweets tweet)) tweet in
        (Tweet_save db id tweet,
         Json 200 (Message "Tweet unretweeted successfully"))
  end.

(** DELETE /api/tweets/:id *)
Definition deleteTweet (db : Db) (req_user : ReqUser) (id : ObjectId)
  : Db * Response :=
  match Tweet_findById db id with
  | None => (db, Json 404 (Message "Tweet not found"))
  | Some tweet =>
      if bool_decide (Tweet.user tweet ≠ _id req_user) then
        (db, Json 401 (Message "User not authorized"))
      else
        (* tweet.deleteOne() *)
        let db := with_tweets (delete id (tweets db)) db in
        let db :=
          Tweet_deleteMany
            (λ d, bool_decide (Tweet.replyTo d.2 = Some id)) db in
        let db :=
          Notification_deleteMany
            (λ n, bool_decide (Notification.tweet n = Some id)) db in
        (db, Json 200 (Message "Tweet deleted successfully"))
  end.

(** ** Search router *)

(** The handler once the database has compiled the pattern, [matches]
    being the test that a content has a match of it: the query, the sort,
    the cap and the decoration. *)
Definition search_with (matches : string → bool) (db : Db)
    (req_user : option ReqUser) : Response :=
  let tweets :=
    limit 50 (sort_createdAt_desc (Tweet_find
      (λ d, matches (Tweet.content d.2)) db)) in
  let formattedTweets :=
    map (format db (λ t, viewer_flag req_user (Tweet.likes t))
                   (λ t, viewer_flag req_user (Tweet.retweets t))
                   None) tweets in
  Json 200 (TweetList (with_replyCounts db formattedTweets)).

Section search_router.

(** The database engine on the queries outside the modelled part of the
    pattern language: [None] when it rejects the query, and otherwise the
    test that a content has a match of it.  Nothing is assumed of it. *)
Variable other_patterns : string → option (string → bool).

(** GET /api/search; [q] is [None] when the parameter is absent.  A
    pattern that the database rejects makes the query throw. *)
Definition searchTweets (db : Db) (req_user : option ReqUser)
    (q : option string) : Response :=
  match q with
  | None => Json 400 (Message "Search query is required")
  | Some q =>
      if negb (JsString.truthy q) then
        Json 400 (Message "Search query is required")
      else
        match Regex.compile q with
        | Regex.Pattern r => search_with (Regex.search r) db req_user
        | Regex.Invalid => server_error
        | Regex.Unmodelled =>
            match other_patterns q with
            | Some matches => search_with matches db req_user
            | None => server_error
            end
        end
  end.

End search_router.

(** ** The routes that change the database *)

Inductive Request : Type :=
| PostTweet (content : option string) (replyTo : option ObjectId)
    (oid : ObjectId) (now : nat)
| PostLike (id : ObjectId)
| PostUnlike (id : ObjectId)
| PostRetweet (id : ObjectId)
| PostUnretweet (id : ObjectId)
| DeleteTweet (id : ObjectId)
| PostFollow (param : RouteParam)
| PostUnfollow (id : ObjectId)
| PutProfile (name bio location website profileImage : option string).

(** All of them are mounted behind [protect]. *)
Definition handle (db : Db) (token : option ObjectId) (r : Request)
  : Db * Response :=
  protect db token (λ req_user,
    match r with
    | PostTweet content replyTo oid now =>
        createPost db req_user content replyTo oid now
    | PostLike id => likeTweet db req_user id
    | PostUnlike id => unlikeTweet db req_user id
    | PostRetweet id => retweetTweet db req_user id
    | PostUnretweet id => unretweetTweet db req_user id
    | DeleteTweet id => deleteTweet db req_user id
    | PostFollow param => followRoute db req_user param
    | PostUnfollow id => unfollow db req_user id
    | PutProfile name bio location website profileImage =>
        updateProfile db req_user name bio location website profileImage
    end).

(** Modelled from the spec: registration, served by routes outside the
    three routers ("User created at registration (external)").  It stores a
    new user who follows nobody and has no follower. *)
Definition register (db : Db) (oid : ObjectId) (u : User.doc) : Db :=
  User_save db oid (User.set_followers [] (User.set_following [] u)).

(** One request served. *)
Inductive step (db : Db) : Db → Prop :=
| step_handle (token : option ObjectId) (r : Request) :
    step db (handle db token r).1
| step_register (oid : ObjectId) (u : User.doc) :
    users db !! oid = None → step db (register db oid u).

(** A database before any engagement: any users and tweets, no
    notification yet. *)
Definition initial (db : Db) : Prop := notifications db = [].

Definition reachable (db : Db) : Prop :=
  ∃ db0, initial db0 ∧ rtc step db0 db.

(** The invariant of the notification store. *)
Definition no_self_notification (db : Db) : Prop :=
  Forall (λ n, Notification.sender n ≠ Notification.recipient n)
         (notifications db).

(** ** Sample data *)

Definition alice : User.doc :=
  User.Doc "Alice" "alice" "alice@example.org" "secret"
           EmptyString EmptyString EmptyString EmptyString [] [] 1.

Definition bob : User.doc :=
  User.Doc "Bob" "bob" "bob@example.org" "hidden"
           EmptyString EmptyString EmptyString EmptyString [] [] 2.

(** Two users (ids 1 and 2), no tweets. *)
Definition two_users : Db := MkDb (<[1 := alice]> (<[2 := bob]> ∅)) ∅ [].

(** Bob's post "hello" (id 10) and Alice's reply to it (id 11). *)
Definition hello : Tweet.doc := Tweet.Doc 2 "hello" [] [] None None [] 100.

Definition hello_reply : Tweet.doc :=
  Tweet.Doc 1 "hi Bob" [] [] (Some 10) None [] 101.

Definition one_post : Db := MkDb (users two_users) (<[10 := hello]> ∅) [].

(** Bob's answer (id 12) to Alice's reply. *)
Definition hello_again : Tweet.doc :=
  Tweet.Doc 2 "hi Alice" [] [] (Some 11) None [] 102.

(** The thread 10 <- 11 <- 12, with the notification of Alice's like of 10
    and the one of her reply 11. *)
Definition thread : Db :=
  MkDb (users two_users)
       (<[10 := hello]> (<[11 := hello_reply]> (<[12 := hello_again]> ∅)))
       [Notification.Doc 2 1 Notification.like (Some 10) false
          "Alice liked your chirp";
        Notification.Doc 2 1 Notification.reply (Some 11) false
          "Alice replied to your chirp"].

(** One visible character followed by 280 spaces: 281 code units, one
    after [trim]. *)
Definition padded_content : string :=
  String "a" (JsString.replicate 280 " ").

Definition full_content : string := JsString.replicate 280 "x".

(** The two validation failures of POST /api/tweets. *)
Definition content_required : Response :=
  Json 400 (Message "Tweet content is required").

Definition content_too_long : Response :=
  Json 400 (Message "Tweet cannot exceed 280 characters").

(** The document stored for a new top-level post. *)
Definition new_post (author : ObjectId) (c : string) (now : nat)
  : Tweet.doc :=
  Tweet.Doc author c [] [] None None [] now.

(** The follow sets and the like set stored for an id (empty when the
    document is missing). *)
Definition followers_of (db : Db) (id : ObjectId) : list ObjectId :=
  default [] (User.followers <$> users db !! id).

Definition following_of (db : Db) (id : ObjectId) : list ObjectId :=
  default [] (User.following <$> users db !! id).

Definition likes_of (db : Db) (id : ObjectId) : list ObjectId :=
  default [] (Tweet.likes <$> tweets db !! id).

(** ** What the feeds are specified to return *)

(** [posts] is the feed of the stored posts that are [wanted]: each of its
    entries is a stored, wanted post, none occurs twice, they come newest
    first, there are at most [cap] of them, and a wanted post is left out
    only when the cap is reached, all entries being at least as new. *)
Definition feed_of (db : Db) (wanted : ObjectId → Tweet.doc → Prop)
    (cap : option nat) (posts : list (ObjectId * Tweet.doc)) : Prop :=
  StronglySorted newer_first posts
  ∧ NoDup posts
  ∧ (∀ d, d ∈ posts → tweets db !! d.1 = Some d.2 ∧ wanted d.1 d.2)
  ∧ (∀ i t, tweets db !! i = Some t → wanted i t →
       (i, t) ∈ posts
       ∨ (cap = Some (length posts)
          ∧ ∀ x, x ∈ posts → Tweet.createdAt t ≤ Tweet.createdAt x.2))
  ∧ (∀ n, cap = Some n → length posts ≤ n).

(** The number of stored posts whose [replyTo] is [id]. *)
Definition replies_count (db : Db) (id : ObjectId) : nat :=
  size (filter (λ d, Tweet.replyTo d.2 = Some id) (tweets db)).

(** The viewer-relative flag: membership of the viewer, false without one. *)
Definition viewer_in (viewer : option ObjectId) (l : list ObjectId) : bool :=
  match viewer with
  | Some v => bool_decide (v ∈ l)
  | None => false
  end.

(** [f] is the post [d] decorated for [viewer]. *)
Definition decorated (db : Db) (viewer : option ObjectId)
    (d : ObjectId * Tweet.doc) (f : Formatted) : Prop :=
  f_id f = d.1
  ∧ f_content f = Tweet.content d.2
  ∧ f_createdAt f = Tweet.createdAt d.2
  ∧ likeCount f = length (Tweet.likes d.2)
  ∧ retweetCount f = length (Tweet.retweets d.2)
  ∧ isLiked f = viewer_in viewer (Tweet.likes d.2)
  ∧ isRetweeted f = viewer_in viewer (Tweet.retweets d.2)
  ∧ replyCount f = replies_count db d.1.

(** [r] is the answer 200 that lists, decorated for [viewer] and in the
    order of the feed, the feed of the stored posts that are [wanted]. *)
Definition decorated_feed (db : Db) (viewer : option ObjectId)
    (wanted : ObjectId → Tweet.doc → Prop) (cap : option nat)
    (r : Response) : Prop :=
  ∃ posts fl,
    r = Json 200 (TweetList fl)
    ∧ feed_of db wanted cap posts
    ∧ Forall2 (decorated db viewer) posts fl.

(** Every listed entry is a stored post carrying the flags of [viewer]. *)
Definition listed_flags (db : Db) (viewer : option ObjectId)
    (l : list Formatted) : Prop :=
  ∀ f, f ∈ l →
    ∃ t, tweets db !! f_id f = Some t
      ∧ isLiked f = viewer_in viewer (Tweet.likes t)
      ∧ isRetweeted f = viewer_in viewer (Tweet.retweets t)
      ∧ (viewer = None → isLiked f = false ∧ isRetweeted f = false).

(** ** Substrings *)

(** [s] starts with [p]. *)
Fixpoint starts_with (p s : string) : bool :=
  match p, s with
  | EmptyString, _ => true
  | String _ _, EmptyString => false
  | String a p', String c s' => bool_decide (a = c) && starts_with p' s'
  end.






(** Usernames are unique (a unique index of the user schema). *)
Definition unique_usernames (db : Db) : Prop :=
  ∀ i j ui uj,
    users db !! i = Some ui → users db !! j = Some uj →
    User.username ui = User.username uj → i = j.

(** ** The other routes of the routers *)

(** An answer whose payload is not one of the bodies above: [Ok] is
    [res.json(payload)], [Fail] an error answer. *)
Inductive Reply (A : Type) : Type :=
| Ok (payload : A)
| Fail (r : Response).

Arguments Ok {A} payload.
Arguments Fail {A} r.

(** [.populate({ path: 'replyTo', ... })]: the reference stays when the
    parent is stored and becomes null otherwise. *)
Definition populate_replyTo (db : Db) (t : Tweet.doc) : option ObjectId :=
  match Tweet.replyTo t with
  | Some parent =>
      match Tweet_findById db parent with
      | Some _ => Some parent
      | None => None
      end
  | None => None
  end.

(** GET /api/users/:username/tweets *)
Definition getUserTweets (db : Db) (req_user : option ReqUser)
    (uname : string) : Response :=
  match User_findOne db uname with
  | None => Json 404 (Message "User not found")
  | Some (uid, user) =>
      let tweets :=
        sort_createdAt_desc (Tweet_find
          (λ d, bool_decide (Tweet.user d.2 = uid)
                || (negb (bool_decide (Tweet.retweetData d.2 = None))
                    && bool_decide (Tweet.user d.2 = uid))) db) in
      let formattedTweets :=
        map (λ d, format db (λ t, viewer_flag req_user (Tweet.likes t))
                            (λ t, viewer_flag req_user (Tweet.retweets t))
                            (populate_replyTo db d.2) d) tweets in
      Json 200 (TweetList (with_replyCounts db formattedTweets))
  end.

(** GET /api/users/suggestions (the handler) *)
Definition getSuggestions (db : Db) (req_user : ReqUser)
  : Reply (list PopulatedUser) :=
  match User_findById db (_id req_user) with
  | None => Fail server_error
  | Some currentUser =>
      let excluded := User.following currentUser ++ [_id req_user] in
      let suggestions :=
        limit 5 (filter (λ d, d.1 ∉ excluded) (map_to_list (users db))) in
      Ok (map (λ d, MkPopulatedUser d.1 (User.name d.2) (User.username d.2)
                      (User.profileImage d.2)) suggestions)
  end.

(** GET /api/tweets/:id *)
Definition getTweet (db : Db) (req_user : option ReqUser) (id : ObjectId)
  : Response :=
  match Tweet_findById db id with
  | None => Json 404 (Message "Tweet not found")
  | Some tweet =>
      let isLiked := viewer_flag req_user (Tweet.likes tweet) in
      let isRetweeted := viewer_flag req_user (Tweet.retweets tweet) in
      let replyCount :=
        Tweet_countDocuments
          (λ d, bool_decide (Tweet.replyTo d.2 = Some id)) db in
      Json 200 (OneTweet (MkFormatted
        id (Tweet.content tweet) (populate_user db (Tweet.user tweet))
        (Tweet.createdAt tweet) (length (Tweet.likes tweet))
        (length (Tweet.retweets tweet)) replyCount isLiked isRetweeted
        (populate_replyTo db tweet)))
  end.

(** *** Notifications router *)

Definition Notification_set_read (b : bool) (n : Notification.doc)
  : Notification.doc :=
  Notification.Doc (Notification.recipient n) (Notification.sender n)
    (Notification.type n) (Notification.tweet n) b (Notification.message n).

(** POST /api/notifications/read-all:
    [updateMany({ recipient, read: false }, { read: true })]. *)
Definition markAllRead (db : Db) (req_user : ReqUser) : Db * Response :=
  (with_notifications
     (map (λ n, if bool_decide (Notification.recipient n = _id req_user)
                   && negb (Notification.read n)
                then Notification_set_read true n else n)
          (notifications db)) db,
   Json 200 (Message "All notifications marked as read")).

(** *** Trends router *)

Module Trend.

(** [tweetCount] is a count, modelled as a natural number. *)
Record doc : Type := Doc {
  hashtag : string;
  tweetCount : nat;
  category : string
}.

End Trend.

(** An entry of the answer; the [_id] of a stored trend is an ObjectId,
    the one of a sample trend a string. *)
Record TrendItem : Type := MkTrendItem {
  trend_id : ObjectId + string;
  trend_hashtag : string;
  trend_tweetCount : nat;
  trend_category : string
}.

Definition sampleTrends : list TrendItem :=
  [ MkTrendItem (inr "1") "#ChirpSocial" 5243 "Technology";
    MkTrendItem (inr "2") "#WebDevelopment" 3721 "Programming";
    MkTrendItem (inr "3") "#JavaScript" 2845 "Programming";
    MkTrendItem (inr "4") "#ReactJS" 2103 "Programming";
    MkTrendItem (inr "5") "#NodeJS" 1876 "Programming";
    MkTrendItem (inr "6") "#NextJS" 1654 "Programming";
    MkTrendItem (inr "7") "#MongoDB" 1432 "Database";
    MkTrendItem (inr "8") "#TailwindCSS" 1298 "Design";
    MkTrendItem (inr "9") "#FullStack" 1187 "Technology";
    MkTrendItem (inr "10") "#CodingLife" 965 "Lifestyle" ].

(** [.sort({ tweetCount: -1 })]. *)
Definition more_tweets_first (x y : ObjectId * Trend.doc) : Prop :=
  Trend.tweetCount y.2 ≤ Trend.tweetCount x.2.

#[global] Instance more_tweets_first_dec : RelDecision more_tweets_first.
Proof. intros x y. unfold more_tweets_first. apply _. Defined.

(** GET /api/trends, over the trend collection. *)
Definition getTrends (stored : gmap ObjectId Trend.doc)
  : Reply (list TrendItem) :=
  let trends := limit 10 (merge_sort more_tweets_first (map_to_list stored)) in
  if length trends =? 0 then Ok sampleTrends
  else Ok (map (λ d, MkTrendItem (inl d.1) (Trend.hashtag d.2)
                       (Trend.tweetCount d.2) (Trend.category d.2)) trends).

(** *** The bearer token of [protect] *)

(** [s.split(sep)] for a one-character separator. *)
Fixpoint split (sep : ascii) (s : string) : list string :=
  match s with
  | EmptyString => [EmptyString]
  | String c s' =>
      if bool_decide (c = sep) then EmptyString :: split sep s'
      else match split sep s' with
           | hd :: tl => String c hd :: tl
           | [] => [String c EmptyString]
           end
  end.

(** The token read from the [authorization] header: the header must be
    present and start with "Bearer"; the token is the second piece of the
    header split at spaces, when there is one and it is not empty. *)
Definition bearer_token (authorization : option string) : option string :=
  match authorization with
  | None => None
  | Some h =>
      if JsString.truthy h && starts_with "Bearer" h then
        match split " " h !! 1 with
        | Some token => if JsString.truthy token then Some token else None
        | None => None
        end
      else None
  end.

(** [protect] from the header: [verify] is [jwt.verify] followed by
    [decoded.id], [None] when the verification throws. *)
Definition protect_header (verify : string → option ObjectId) (db : Db)
    (authorization : option string) (next : ReqUser → Db * Response)
  : Db * Response :=
  protect db (bearer_token authorization ≫= verify) next.

(** *** The order of the GET routes *)

Inductive segment : Type :=
| Fixed (s : string)
| Param (name : string).

(** A fixed segment matches up to case, a parameter matches any
    non-empty segment. *)
Definition segment_matches (p : segment) (s : string) : bool :=
  match p with
  | Fixed f => bool_decide (JsString.lower f = JsString.lower s)
  | Param _ => JsString.truthy s
  end.

Fixpoint path_matches (pattern : list segment) (path : list string) : bool :=
  match pattern, path with
  | [], [] => true
  | p :: pattern', s :: path' =>
      segment_matches p s && path_matches pattern' path'
  | _, _ => false
  end.

(** The first registered route whose path matches serves the request (no
    handler of these routers calls [next]). *)
Definition dispatch {H : Type} (routes : list (list segment * H))
    (path : list string) : option H :=
  (λ r, snd r.2) <$> list_find (λ r, path_matches r.1 path = true) routes.

Inductive UsersGet : Type :=
| GetProfile | GetUserTweets | GetSuggestions.

(** [router.get] of the users router, in the order of registration. *)
Definition users_get_routes : list (list segment * UsersGet) :=
  [ ([Param "username"], GetProfile);
    ([Param "username"; Fixed "tweets"], GetUserTweets);
    ([Fixed "suggestions"], GetSuggestions) ].

Inductive TweetsGet : Type :=
| GetTimeline | GetExplore | GetTweet | GetReplies.

(** [router.get] of the tweets router, in the order of registration. *)
Definition tweets_get_routes : list (list segment * TweetsGet) :=
  [ ([Fixed "timeline"], GetTimeline);
    ([Fixed "explore"], GetExplore);
    ([Param "id"], GetTweet);
    ([Param "id"; Fixed "replies"], GetReplies) ].

(** ** Invariants of the stored data *)

(** The follow sets mirror each other and have no duplicate. *)
Definition follow_graph_ok (db : Db) : Prop :=
  (∀ a b, a ∈ followers_of db b ↔ b ∈ following_of db a)
  ∧ (∀ a, NoDup (followers_of db a) ∧ NoDup (following_of db a)).

(** The like and retweet sets have no duplicate. *)
Definition engagement_ok (db : Db) : Prop :=
  ∀ i t, tweets db !! i = Some t →
    NoDup (Tweet.likes t) ∧ NoDup (Tweet.retweets t).

(** The fields of a post that no route rewrites. *)
Definition same_post (t t' : Tweet.doc) : Prop :=
  Tweet.user t' = Tweet.user t
  ∧ Tweet.content t' = Tweet.content t
  ∧ Tweet.replyTo t' = Tweet.replyTo t
  ∧ Tweet.retweetData t' = Tweet.retweetData t
  ∧ Tweet.media t' = Tweet.media t
  ∧ Tweet.createdAt t' = Tweet.createdAt t.

(** The answer reports a fault of the request. *)
Definition client_error (r : Response) : Prop :=
  400 ≤ status r < 500.

(** The post [t] stored under [i] is still stored, with the same fixed
    fields. *)
Definition post_kept (i : ObjectId) (t : Tweet.doc) (db' : Db) : Prop :=
  ∃ t', tweets db' !! i = Some t' ∧ same_post t t'.

(** The fields of a user that no route of the three routers rewrites. *)
Definition same_identity (u u' : User.doc) : Prop :=
  User.username u' = User.username u
  ∧ User.email u' = User.email u
  ∧ User.password u' = User.password u
  ∧ User.createdAt u' = User.createdAt u.

(** The fields that the profile update may rewrite. *)
Definition same_profile (u u' : User.doc) : Prop :=
  User.name u' = User.name u
  ∧ User.bio u' = User.bio u
  ∧ User.location u' = User.location u
  ∧ User.website u' = User.website u
  ∧ User.profileImage u' = User.profileImage u.

(** The order of the entries of the trends answer. *)
Definition busier_first (x y : TrendItem) : Prop :=
  trend_tweetCount y ≤ trend_tweetCount x.

#[global] Instance busier_first_dec : RelDecision busier_first.
Proof. intros x y. unfold busier_first. apply _. Defined.

(** The character [c] occurs in [s]. *)
Fixpoint has_char (c : ascii) (s : string) : bool :=
  match s with
  | EmptyString => false
  | String x s' => bool_decide (x = c) || has_char c s'
  end.

(** The account that a profile update stores in place of [u]. *)
Definition updated_profile (name bio location website img : option string)
    (u : User.doc) : User.doc :=
  User.Doc
    (match name with
     | Some n => if JsString.is_empty n then User.name u else n
     | None => User.name u
     end)
    (User.username u) (User.email u) (User.password u)
    (default (User.bio u) bio) (default (User.location u) location)
    (default (User.website u) website) (default (User.profileImage u) img)
    (User.followers u) (User.following u) (User.createdAt u).

(** *** More sample data *)


(** [one_post] after Alice and Bob have liked the post. *)
Definition liked_post : Db :=
  MkDb (users two_users) (<[10 := Tweet.set_likes [1; 2] hello]> ∅) [].

Definition some_trends : gmap ObjectId Trend.doc :=
  <[1 := Trend.Doc "#rocq" 3 "Trending"]>
    (<[2 := Trend.Doc "#stdpp" 7 "Trending"]> ∅).

(** * Properties *)

(** ** Strings *)

Section strings.

Lemma is_empty_true (s : string) :
  JsString.is_empty s = true ↔ s = EmptyString.
Proof. destruct s; simpl; split; congruence. Qed.

Lemma truthy_trim (s : string) :
  JsString.is_empty (JsString.trim s) = false → JsString.truthy s = true.
Proof. destruct s; simpl; [discriminate | done]. Qed.

Lemma length_replicate (n : nat) (c : ascii) :
  String.length (JsString.replicate n c) = n.
Proof. induction n; simpl; congruence. Qed.

End strings.

(** ** Creating a post *)

Section createPost.

Variables (db : Db) (req_user : ReqUser) (oid now : nat).

Lemma createPost_cases (c : string) :
  let r := createPost db req_user (Some c) None oid now in
  (JsString.trim c = EmptyString ∧ r = (db, content_required))
  ∨ (JsString.trim c ≠ EmptyString ∧ 280 < String.length c
     ∧ r = (db, content_too_long))
  ∨ (JsString.trim c ≠ EmptyString ∧ String.length c ≤ 280
     ∧ r = match tweets db !! oid with
           | None =>
               (Tweet_save db oid (new_post (_id req_user) c now),
                Json 201 (OneTweet (MkFormatted oid c
                  (populate_user db (_id req_user)) now 0 0 0 false false
                  None)))
           | Some _ => (db, server_error)
           end).
Proof.
  unfold createPost; simpl.
  destruct (JsString.is_empty (JsString.trim c)) eqn:He.
  { left. rewrite orb_true_r. by apply is_empty_true in He. }
  assert (JsString.trim c ≠ EmptyString) as Hne.
  { intros Heq. apply is_empty_true in Heq. congruence. }
  pose proof (truthy_trim c He) as Ht. rewrite Ht; simpl.
  destruct (280 <? String.length c) eqn:Hl.
  { right; left. by apply Nat.ltb_lt in Hl. }
  right; right. apply Nat.ltb_ge in Hl.
  split; [done|]. split; [done|].
  unfold Tweet_insert, Tweet.validate; simpl. rewrite Ht; simpl.
  apply Nat.leb_le in Hl as ->. by destruct (tweets db !! oid).
Qed.

End createPost.

(** C4 (as amended).  POST /api/tweets answers "Tweet content is required"
    exactly when the trimmed content is empty; otherwise it answers "Tweet
    cannot exceed 280 characters" exactly when the content as sent, not
    trimmed, has more than 280 characters; a content with a non-empty trim
    and at most 280 characters as sent is stored and answered with 201.  In
    particular every content of 281 characters is refused, and a content of
    exactly 280 characters that is not blank is accepted. *)
Theorem createPost_content_checks
    (db : Db) (req_user : ReqUser) (c : string) (oid now : nat) :
  let r := createPost db req_user (Some c) None oid now in
  (r.2 = content_required ↔ JsString.trim c = EmptyString)
  ∧ (r.2 = content_too_long
     ↔ JsString.trim c ≠ EmptyString ∧ 280 < String.length c)
  ∧ (JsString.trim c ≠ EmptyString → String.length c ≤ 280 →
     tweets db !! oid = None →
     r.1 = Tweet_save db oid (new_post (_id req_user) c now)
     ∧ status r.2 = 201)
  ∧ (String.length c = 281 → r.1 = db ∧ status r.2 = 400)
  ∧ (String.length c = 280 → JsString.trim c ≠ EmptyString →
     tweets db !! oid = None →
     tweets r.1 !! oid = Some (new_post (_id req_user) c now)
     ∧ status r.2 = 201).
Proof.
  intros r.
  destruct (createPost_cases db req_user oid now c)
    as [[He Hr] | [(Hne & Hl & Hr) | (Hne & Hl & Hr)]];
    fold r in Hr.
  - rewrite Hr; simpl. repeat split; try done; try naive_solver.
  - rewrite Hr; simpl. repeat split; try done; try lia; try naive_solver.
  - assert (r.2 ≠ content_required ∧ r.2 ≠ content_too_long) as [H1 H2].
    { rewrite Hr. destruct (tweets db !! oid); simpl; split; discriminate. }
    split; [split; [intros; done | intros; done]|].
    split; [split; [intros; done | intros [_ ?]; lia]|].
    split.
    { intros _ _ Hfresh. rewrite Hr, Hfresh. done. }
    split; [intros; lia|].
    intros _ _ Hfresh. rewrite Hr, Hfresh; simpl.
    split; [apply lookup_insert_eq | done].
Qed.

Lemma createPost_content_checks_witness :
  tweets (createPost two_users (MkReqUser 1 alice) (Some full_content) None
            7 5).1 !! 7
  = Some (new_post 1 full_content 5)
  ∧ status (createPost two_users (MkReqUser 1 alice) (Some full_content) None
              7 5).2 = 201.
Proof.
  apply (createPost_content_checks two_users (MkReqUser 1 alice)
           full_content 7 5).
  - vm_compute; reflexivity.
  - vm_compute; discriminate.
  - vm_compute; reflexivity.
Defined.

(** C4 (as stated) fails: a content of one visible character followed by
    280 spaces has a single character after [trim], yet it is refused as
    exceeding 280 characters. *)
Lemma createPost_too_long_after_trim_counterexample :
  ¬ ((createPost two_users (MkReqUser 1 alice) (Some padded_content) None
        7 5).2 = content_too_long
     ↔ 280 < String.length (JsString.trim padded_content)).
Proof.
  intros [H _].
  assert (280 < String.length (JsString.trim padded_content)) as Hlt.
  { apply H. vm_compute. reflexivity. }
  vm_compute in Hlt. lia.
Qed.

(** ** Arrays of ids *)

Section arrays.

Implicit Types (l : list nat) (x y : nat).

Lemma includes_true l x : includes l x = true ↔ x ∈ l.
Proof. unfold includes. apply bool_decide_eq_true. Qed.

Lemma includes_false l x : includes l x = false ↔ x ∉ l.
Proof. unfold includes. apply bool_decide_eq_false. Qed.

Lemma without_absent l x : x ∉ l → without x l = l.
Proof.
  unfold without. induction l as [|y l IH]; [done|].
  intros Hx. apply not_elem_of_cons in Hx as [Hne Hx].
  rewrite filter_cons_True by congruence. by rewrite IH.
Qed.

Lemma without_push l x : x ∉ l → without x (l ++ [x]) = l.
Proof.
  intros Hx. unfold without. rewrite filter_app.
  fold (without x l). rewrite (without_absent l x Hx).
  rewrite filter_cons_False by (intros ?; congruence).
  rewrite filter_nil. apply app_nil_r.
Qed.

Lemma without_not_elem l x : x ∉ without x l.
Proof. unfold without. rewrite list_elem_of_filter. naive_solver. Qed.

End arrays.

(** ** Likes *)

Section likes.

Variables (db : Db) (req_user : ReqUser) (id : nat) (t : Tweet.doc).
Hypothesis Hpost : tweets db !! id = Some t.

Lemma likeTweet_ok :
  _id req_user ∉ Tweet.likes t →
  ∃ db', likeTweet db req_user id
         = (db', Json 200 (Message "Tweet liked successfully"))
    ∧ users db' = users db
    ∧ tweets db'
      = <[id := Tweet.set_likes (Tweet.likes t ++ [_id req_user]) t]>
          (tweets db).
Proof.
  intros Hn. unfold likeTweet, Tweet_findById. rewrite Hpost.
  apply includes_false in Hn. rewrite Hn.
  eexists; split; [reflexivity|]. by case_bool_decide.
Qed.

Lemma unlikeTweet_ok :
  _id req_user ∈ Tweet.likes t →
  unlikeTweet db req_user id
  = (Tweet_save db id
       (Tweet.set_likes (without (_id req_user) (Tweet.likes t)) t),
     Json 200 (Message "Tweet unliked successfully")).
Proof.
  intros Hn. unfold unlikeTweet, Tweet_findById. rewrite Hpost.
  apply includes_true in Hn. by rewrite Hn.
Qed.

End likes.

(** C6.  For a user U and a post P that U has not liked, like(U,P) and then
    unlike(U,P) both succeed, U is in the like set in between, and the like
    set of P (indeed every modelled field of every stored tweet, which
    leaves out [updatedAt]) is afterwards what it was before the like. *)
Theorem like_unlike_round_trip
    (db : Db) (req_user : ReqUser) (id : nat) (t : Tweet.doc) :
  tweets db !! id = Some t →
  _id req_user ∉ Tweet.likes t →
  let r1 := likeTweet db req_user id in
  let r2 := unlikeTweet r1.1 req_user id in
  status r1.2 = 200
  ∧ _id req_user ∈ likes_of (r1.1) id
  ∧ status r2.2 = 200
  ∧ likes_of (r2.1) id = likes_of db id
  ∧ tweets r2.1 = tweets db.
Proof.
  intros Hpost Hn r1 r2.
  destruct (likeTweet_ok db req_user id t Hpost Hn) as (db1 & H1 & Hu & Ht).
  subst r2 r1. rewrite H1; simpl.
  assert (tweets db1 !! id
          = Some (Tweet.set_likes (Tweet.likes t ++ [_id req_user]) t)) as Hp1.
  { rewrite Ht. apply lookup_insert_eq. }
  rewrite (unlikeTweet_ok db1 req_user id _ Hp1)
    by (simpl; set_solver).
  simpl. rewrite without_push by done.
  assert (<[id := Tweet.set_likes (Tweet.likes t)
                    (Tweet.set_likes (Tweet.likes t ++ [_id req_user]) t)]>
            (tweets db1) = tweets db) as Heq.
  { rewrite Ht, insert_insert_eq. destruct t; simpl. by apply insert_id. }
  unfold likes_of; simpl. rewrite Heq, Hp1, Hpost; simpl.
  repeat split; try done. set_solver.
Qed.

(** ** The follow graph *)

Section follow_graph.

Variables (db : Db) (req_user : ReqUser) (id : nat) (a b : User.doc).
Hypothesis Hne : _id req_user ≠ id.
Hypothesis Hactor : users db !! (_id req_user) = Some a.
Hypothesis Htarget : users db !! id = Some b.

Lemma follow_ok :
  _id req_user ∉ User.followers b →
  ∃ db', follow db req_user id
         = (db', Json 200 (Message "User followed successfully"))
    ∧ users db'
      = <[_id req_user :=
            User.set_following (User.following a ++ [id]) a]>
          (<[id := User.set_followers
                     (User.followers b ++ [_id req_user]) b]> (users db))
    ∧ tweets db' = tweets db.
Proof.
  intros Hn. unfold follow, followRoute, toString_is, User_findById;
    cbn [casts_to canonical andb]. rewrite Htarget.
  apply includes_false in Hn. rewrite Hn.
  rewrite bool_decide_eq_false_2 by done. simpl.
  rewrite lookup_insert_ne by done. rewrite Hactor.
  eexists; split; [reflexivity|]. done.
Qed.

Lemma unfollow_ok :
  _id req_user ∈ User.followers b →
  unfollow db req_user id
  = (User_save
       (User_save db id
          (User.set_followers
             (without (_id req_user) (User.followers b)) b))
       (_id req_user)
       (User.set_following (without id (User.following a)) a),
     Json 200 (Message "User unfollowed successfully")).
Proof.
  intros Hn. unfold unfollow, User_findById. rewrite Htarget.
  apply includes_true in Hn. rewrite Hn. simpl.
  rewrite lookup_insert_ne by done. by rewrite Hactor.
Qed.

End follow_graph.

(** C1.  For users A ≠ B that both exist, A not among B's followers:
    follow(A,B) succeeds and leaves A in B.followers and B in A.following;
    the unfollow(A,B) that comes next succeeds and leaves A out of
    B.followers and B out of A.following.  B.followers is then exactly what
    it was before the follow, and so is the whole user collection when B was
    not in A.following before. *)
Theorem follow_unfollow_mirror
    (db : Db) (req_user : ReqUser) (id : nat) (a b : User.doc) :
  _id req_user ≠ id →
  users db !! (_id req_user) = Some a →
  users db !! id = Some b →
  _id req_user ∉ User.followers b →
  let r1 := follow db req_user id in
  let r2 := unfollow r1.1 req_user id in
  (r1.2 = Json 200 (Message "User followed successfully")
   ∧ _id req_user ∈ followers_of (r1.1) id
   ∧ id ∈ following_of (r1.1) (_id req_user))
  ∧ (r2.2 = Json 200 (Message "User unfollowed successfully")
     ∧ (_id req_user ∉ followers_of (r2.1) id)
     ∧ id ∉ following_of (r2.1) (_id req_user))
  ∧ followers_of (r2.1) id = followers_of db id
  ∧ (id ∉ User.following a → users r2.1 = users db).
Proof.
  intros Hne Ha Hb Hn r1 r2.
  destruct (follow_ok db req_user id a b Hne Ha Hb Hn)
    as (db1 & H1 & Hu1 & _).
  subst r2 r1. rewrite H1; simpl.
  set (a1 := User.set_following (User.following a ++ [id]) a) in *.
  set (b1 := User.set_followers (User.followers b ++ [_id req_user]) b) in *.
  assert (users db1 !! (_id req_user) = Some a1) as Ha1.
  { rewrite Hu1. apply lookup_insert_eq. }
  assert (users db1 !! id = Some b1) as Hb1.
  { rewrite Hu1, lookup_insert_ne by done. apply lookup_insert_eq. }
  rewrite (unfollow_ok db1 req_user id a1 b1 Hne Ha1 Hb1)
    by (simpl; set_solver).
  unfold followers_of, following_of; simpl.
  rewrite Ha1, Hb1, Hb; simpl.
  rewrite lookup_insert_eq, lookup_insert_ne, lookup_insert_eq by done.
  simpl. rewrite without_push by done.
  split; [split; [done | split; set_solver]|].
  split; [split; [done | split; [done | apply without_not_elem]]|].
  split; [done|].
  intros Hn'. rewrite without_push by done.
  rewrite Hu1. apply map_eq; intros k.
  destruct (decide (k = _id req_user)) as [->|Hk1].
  { rewrite lookup_insert_eq, Ha. by destruct a. }
  rewrite lookup_insert_ne by done.
  destruct (decide (k = id)) as [->|Hk2].
  { rewrite lookup_insert_eq, Hb. by destruct b. }
  by rewrite !lookup_insert_ne by done.
Qed.

(** ** Deleting a post *)

Section deleteTweet.

Variables (db : Db) (req_user : ReqUser) (id : nat).

Lemma deleteTweet_missing :
  tweets db !! id = None →
  deleteTweet db req_user id = (db, Json 404 (Message "Tweet not found")).
Proof. intros H. unfold deleteTweet, Tweet_findById. by rewrite H. Qed.

Lemma deleteTweet_not_owner (t : Tweet.doc) :
  tweets db !! id = Some t → Tweet.user t ≠ _id req_user →
  deleteTweet db req_user id
  = (db, Json 401 (Message "User not authorized")).
Proof.
  intros H Hne. unfold deleteTweet, Tweet_findById. rewrite H.
  by rewrite bool_decide_eq_true_2.
Qed.

Lemma deleteTweet_owner (t : Tweet.doc) :
  tweets db !! id = Some t → Tweet.user t = _id req_user →
  deleteTweet db req_user id
  = (MkDb (users db)
       (filter (λ d, bool_decide (Tweet.replyTo d.2 = Some id) = false)
               (delete id (tweets db)))
       (filter (λ n, bool_decide (Notification.tweet n = Some id) = false)
               (notifications db)),
     Json 200 (Message "Tweet deleted successfully")).
Proof.
  intros H He. unfold deleteTweet, Tweet_findById. rewrite H.
  rewrite bool_decide_eq_false_2 by (intros Hne; by apply Hne).
  reflexivity.
Qed.

Lemma deleteTweet_tweets (t : Tweet.doc) (k : nat) (x : Tweet.doc) :
  tweets db !! id = Some t → Tweet.user t = _id req_user →
  tweets (deleteTweet db req_user id).1 !! k = Some x
  ↔ tweets db !! k = Some x ∧ k ≠ id ∧ Tweet.replyTo x ≠ Some id.
Proof.
  intros H He. rewrite (deleteTweet_owner t H He). simpl.
  rewrite map_lookup_filter_Some, lookup_delete_Some. simpl.
  rewrite bool_decide_eq_false. naive_solver.
Qed.

Lemma deleteTweet_notifications (t : Tweet.doc) (n : Notification.doc) :
  tweets db !! id = Some t → Tweet.user t = _id req_user →
  n ∈ notifications (deleteTweet db req_user id).1
  ↔ n ∈ notifications db ∧ Notification.tweet n ≠ Some id.
Proof.
  intros H He. rewrite (deleteTweet_owner t H He). simpl.
  rewrite list_elem_of_filter, bool_decide_eq_false. naive_solver.
Qed.

End deleteTweet.

(** C3.  deletePost answers 404 when no post has the id and 401 when the
    requester is not the author of the post.  Otherwise it succeeds, and
    the posts left are exactly those that were neither the post nor a reply
    to it, and the notifications left are exactly those whose related post
    is another one; users are untouched.  In particular a direct reply R is
    gone while a post replying to R stays. *)
Theorem deleteTweet_cascade (db : Db) (req_user : ReqUser) (id : nat) :
  (tweets db !! id = None →
   deleteTweet db req_user id = (db, Json 404 (Message "Tweet not found")))
  ∧ (∀ t, tweets db !! id = Some t → Tweet.user t ≠ _id req_user →
       deleteTweet db req_user id
       = (db, Json 401 (Message "User not authorized")))
  ∧ (∀ t, tweets db !! id = Some t → Tweet.user t = _id req_user →
       let r := deleteTweet db req_user id in
       r.2 = Json 200 (Message "Tweet deleted successfully")
       ∧ users r.1 = users db
       ∧ (∀ k x, tweets r.1 !! k = Some x
                 ↔ tweets db !! k = Some x ∧ k ≠ id
                   ∧ Tweet.replyTo x ≠ Some id)
       ∧ (∀ n, n ∈ notifications r.1
               ↔ n ∈ notifications db ∧ Notification.tweet n ≠ Some id)
       ∧ (∀ R x G g,
            tweets db !! R = Some x → Tweet.replyTo x = Some id →
            tweets db !! G = Some g → Tweet.replyTo g = Some R →
            G ≠ id → R ≠ id →
            tweets r.1 !! id = None ∧ tweets r.1 !! R = None
            ∧ tweets r.1 !! G = Some g)).
Proof.
  split; [apply deleteTweet_missing|].
  split; [apply deleteTweet_not_owner|].
  intros t H He r.
  assert (∀ k x, tweets r.1 !! k = Some x
                 ↔ tweets db !! k = Some x ∧ k ≠ id
                   ∧ Tweet.replyTo x ≠ Some id) as Hiff.
  { intros k x. by apply (deleteTweet_tweets db req_user id t). }
  split; [subst r; by rewrite (deleteTweet_owner db req_user id t H He)|].
  split; [subst r; by rewrite (deleteTweet_owner db req_user id t H He)|].
  split; [done|].
  split; [intros n; by apply (deleteTweet_notifications db req_user id t)|].
  intros R x G g HR HxR HG HgG HGid HRid.
  split; [|split].
  - apply eq_None_not_Some. intros [y Hy]. apply Hiff in Hy. naive_solver.
  - apply eq_None_not_Some. intros [y Hy]. apply Hiff in Hy. naive_solver.
  - apply Hiff. naive_solver.
Qed.


(** ** Notifications addressed to their sender *)

Section notifications.

Implicit Types (db : Db) (req_user : ReqUser) (n : Notification.doc).

Lemma no_self_create db n :
  no_self_notification db →
  Notification.sender n ≠ Notification.recipient n →
  no_self_notification (Notification_create db n).
Proof.
  unfold no_self_notification, Notification_create; simpl.
  intros Hdb Hn. apply Forall_app. split; [done|]. by apply Forall_singleton.
Qed.

Lemma no_self_deleteMany db cond :
  no_self_notification db →
  no_self_notification (Notification_deleteMany cond db).
Proof.
  unfold no_self_notification, Notification_deleteMany; simpl.
  rewrite !Forall_forall. intros Hdb n Hn.
  apply list_elem_of_filter in Hn as [_ Hn]. by apply Hdb.
Qed.

Lemma no_self_same db db' :
  notifications db' = notifications db →
  no_self_notification db → no_self_notification db'.
Proof. unfold no_self_notification. by intros ->. Qed.

Local Ltac same := by (eapply no_self_same; [|eassumption]).

Lemma unfollow_no_self db req_user id :
  no_self_notification db →
  no_self_notification (unfollow db req_user id).1.
Proof.
  intros Hdb. unfold unfollow.
  destruct (User_findById db id); [|done].
  destruct (negb _); [done|]. simpl.
  destruct (User_findById _ _); simpl; same.
Qed.

Lemma likeTweet_no_self db req_user id :
  no_self_notification db →
  no_self_notification (likeTweet db req_user id).1.
Proof.
  intros Hdb. unfold likeTweet.
  destruct (Tweet_findById db id); [|done].
  destruct (includes _ _); [done|]. simpl.
  case_bool_decide as Hself; simpl; [|same].
  apply no_self_create; simpl; [same | congruence].
Qed.

Lemma retweetTweet_no_self db req_user id :
  no_self_notification db →
  no_self_notification (retweetTweet db req_user id).1.
Proof.
  intros Hdb. unfold retweetTweet.
  destruct (Tweet_findById db id); [|done].
  destruct (includes _ _); [done|]. simpl.
  case_bool_decide as Hself; simpl; [|same].
  apply no_self_create; simpl; [same | congruence].
Qed.

Lemma unlikeTweet_no_self db req_user id :
  no_self_notification db →
  no_self_notification (unlikeTweet db req_user id).1.
Proof.
  intros Hdb. unfold unlikeTweet.
  destruct (Tweet_findById db id); [|done].
  destruct (negb _); [done|]. simpl. same.
Qed.

Lemma unretweetTweet_no_self db req_user id :
  no_self_notification db →
  no_self_notification (unretweetTweet db req_user id).1.
Proof.
  intros Hdb. unfold unretweetTweet.
  destruct (Tweet_findById db id); [|done].
  destruct (negb _); [done|]. simpl. same.
Qed.

Lemma deleteTweet_no_self db req_user id :
  no_self_notification db →
  no_self_notification (deleteTweet db req_user id).1.
Proof.
  intros Hdb. unfold deleteTweet.
  destruct (Tweet_findById db id); [|done].
  case_bool_decide; [done|]. simpl.
  apply no_self_deleteMany. same.
Qed.

Lemma Tweet_insert_notifications db db' oid t :
  Tweet_insert db oid t = Some db' → notifications db' = notifications db.
Proof.
  unfold Tweet_insert. destruct (Tweet.validate t); [|done].
  destruct (tweets db !! oid); [done|]. by intros [= <-].
Qed.

Lemma createPost_no_self db req_user content replyTo oid now :
  no_self_notification db →
  no_self_notification (createPost db req_user content replyTo oid now).1.
Proof.
  intros Hdb. unfold createPost.
  destruct content as [c|]; [|done].
  destruct (_ || _); [done|].
  destruct (280 <? _); [done|].
  assert (∀ db1 r t, no_self_notification db1 →
            no_self_notification
              (match Tweet_insert db1 oid t with
               | Some db2 => (db2, r db2)
               | None => (db1, server_error)
               end).1) as Hfinish.
  { intros db1 r t H1. destruct (Tweet_insert db1 oid t) eqn:Hi; [|done].
    simpl. apply Tweet_insert_notifications in Hi. same. }
  destruct replyTo as [parent|]; [|by apply Hfinish].
  destruct (Tweet_findById db parent) as [originalTweet|]; [|done].
  apply Hfinish. case_bool_decide as Hself; [|done].
  apply no_self_create; simpl; [done | congruence].
Qed.

Lemma updateProfile_no_self db req_user name bio location website image :
  no_self_notification db →
  no_self_notification
    (updateProfile db req_user name bio location website image).1.
Proof.
  intros Hdb. unfold updateProfile.
  destruct (User_findById _ _); [|done]. simpl. same.
Qed.

Lemma followRoute_no_self db req_user param :
  canonical param = true ∨ casts_to param ≠ _id req_user →
  no_self_notification db →
  no_self_notification (followRoute db req_user param).1.
Proof.
  intros Hparam Hdb. unfold followRoute, toString_is.
  destruct (User_findById db (casts_to param)); [|done].
  destruct (includes _ _); [done|].
  destruct (canonical param && _) eqn:Hself; [done|]. simpl.
  destruct (User_findById _ _); simpl; [|same].
  apply no_self_create; simpl; [same|].
  apply andb_false_iff in Hself as [Hc | Hne%bool_decide_eq_false].
  - destruct Hparam as [Hc' | Hne]; [congruence | done].
  - done.
Qed.

Lemma handle_no_self db token r :
  (∀ param, r = PostFollow param →
     canonical param = true ∨ token ≠ Some (casts_to param)) →
  no_self_notification db → no_self_notification (handle db token r).1.
Proof.
  intros Hparam Hdb. unfold handle, protect.
  destruct token as [uid|]; [|done].
  destruct (User_findById db uid); [|done].
  destruct r;
    auto using createPost_no_self, likeTweet_no_self, unlikeTweet_no_self,
      retweetTweet_no_self, unretweetTweet_no_self, deleteTweet_no_self,
      unfollow_no_self, updateProfile_no_self.
  apply followRoute_no_self; [|done]. simpl.
  destruct (Hparam param eq_refl) as [Hc | Hne]; [by left | right].
  congruence.
Qed.

End notifications.

(** C8.  The invariant fails on the code.  Every request keeps the senders
    of the stored notifications different from their recipients, provided
    that a follow request names its target by the canonical rendering of
    the id or targets another user than the requester: the follow route
    then refuses to follow oneself.  But the route compares the rendering
    of the requester's id with the parameter as a string, so a parameter
    that spells the requester's own id differently (upper-case hexadecimal
    digits) passes the test: the requester is stored among their own
    followers and followees, and a "follow" notification whose sender is
    its recipient is stored.  Sent to a database without notifications,
    this request gives a reachable database that breaks the invariant. *)
Theorem self_follow_stores_self_notification :
  (∀ db token r,
     (∀ param, r = PostFollow param →
        canonical param = true ∨ token ≠ Some (casts_to param)) →
     no_self_notification db → no_self_notification (handle db token r).1)
  ∧ (∀ db req_user a,
       users db !! (_id req_user) = Some a →
       _id req_user ∉ User.followers a →
       followRoute db req_user (MkRouteParam (_id req_user) true)
       = (db, Json 400 (Message "You cannot follow yourself"))
       ∧ let r := followRoute db req_user (MkRouteParam (_id req_user) false)
         in
         r.2 = Json 200 (Message "User followed successfully")
         ∧ _id req_user ∈ followers_of (r.1) (_id req_user)
         ∧ _id req_user ∈ following_of (r.1) (_id req_user)
         ∧ notifications r.1
           = notifications db
             ++ [Notification.Doc (_id req_user) (_id req_user)
                   Notification.follow None false
                   (User.name (profile req_user)
                      +:+ " started following you")]
         ∧ ¬ no_self_notification r.1)
  ∧ (∀ db id a,
       initial db → users db !! id = Some a → id ∉ User.followers a →
       let r := handle db (Some id) (PostFollow (MkRouteParam id false)) in
       r.2 = Json 200 (Message "User followed successfully")
       ∧ reachable r.1
       ∧ ¬ no_self_notification r.1).
Proof.
  assert (∀ db req_user a,
       users db !! (_id req_user) = Some a →
       _id req_user ∉ User.followers a →
       let r := followRoute db req_user (MkRouteParam (_id req_user) false)
       in
       r.2 = Json 200 (Message "User followed successfully")
       ∧ _id req_user ∈ followers_of (r.1) (_id req_user)
       ∧ _id req_user ∈ following_of (r.1) (_id req_user)
       ∧ notifications r.1
         = notifications db
           ++ [Notification.Doc (_id req_user) (_id req_user)
                 Notification.follow None false
                 (User.name (profile req_user)
                    +:+ " started following you")]
       ∧ ¬ no_self_notification r.1) as Hself.
  { intros db req_user a Ha Hn. apply includes_false in Hn as Hn'.
    unfold followRoute, toString_is, User_findById. simpl.
    rewrite Ha, Hn'. simpl. rewrite lookup_insert_eq. simpl.
    split; [done|]. unfold followers_of, following_of. simpl.
    rewrite lookup_insert_eq. simpl.
    split; [set_solver|]. split; [set_solver|]. split; [done|].
    unfold no_self_notification. simpl.
    rewrite Forall_app, Forall_singleton. intros [_ Hlast]. by apply Hlast. }
  split; [apply handle_no_self|]. split.
  - intros db req_user a Ha Hn. split; [|by apply (Hself db req_user a)].
    apply includes_false in Hn as Hn'.
    unfold followRoute, toString_is, User_findById. simpl.
    rewrite Ha, Hn'. by rewrite bool_decide_eq_true_2.
  - intros db id a Hinit Ha Hn r.
    assert (r = followRoute db (MkReqUser id a) (MkRouteParam id false))
      as ->.
    { subst r. unfold handle, protect, User_findById. by rewrite Ha. }
    destruct (Hself db (MkReqUser id a) a Ha Hn) as (H200 & _ & _ & _ & Hbad).
    split; [exact H200|]. split; [|exact Hbad].
    exists db. split; [done|].
    replace (followRoute db (MkReqUser id a) (MkRouteParam id false)).1
      with (handle db (Some id) (PostFollow (MkRouteParam id false))).1.
    + apply rtc_once, step_handle.
    + unfold handle, protect, User_findById. by rewrite Ha.
Qed.

Lemma self_follow_stores_self_notification_witness :
  (handle two_users (Some 1) (PostFollow (MkRouteParam 1 false))).2
  = Json 200 (Message "User followed successfully")
  ∧ reachable
      (handle two_users (Some 1) (PostFollow (MkRouteParam 1 false))).1
  ∧ ¬ no_self_notification
        (handle two_users (Some 1) (PostFollow (MkRouteParam 1 false))).1.
Proof.
  apply (proj2 (proj2 self_follow_stores_self_notification) two_users 1
           alice).
  - reflexivity.
  - reflexivity.
  - simpl. apply not_elem_of_nil.
Defined.

(** ** Feed queries *)

Section feeds.

Implicit Types (db : Db) (d : nat * Tweet.doc).

Lemma newer_first_total : Total newer_first.
Proof. intros x y. unfold newer_first. lia. Qed.

Lemma newer_first_trans : Transitive newer_first.
Proof. intros x y z. unfold newer_first. lia. Qed.

Lemma elem_of_Tweet_find db cond d :
  d ∈ Tweet_find cond db ↔ tweets db !! d.1 = Some d.2 ∧ cond d = true.
Proof.
  unfold Tweet_find. rewrite list_elem_of_filter, elem_of_map_to_list'.
  naive_solver.
Qed.

Lemma NoDup_Tweet_find db cond : NoDup (Tweet_find cond db).
Proof. apply NoDup_filter, NoDup_map_to_list. Qed.

Lemma Tweet_countDocuments_replies db id :
  Tweet_countDocuments (λ d, bool_decide (Tweet.replyTo d.2 = Some id)) db
  = replies_count db id.
Proof.
  unfold Tweet_countDocuments, Tweet_find, replies_count.
  rewrite map_filter_alt, map_size_list_to_map.
  - f_equal. apply list_filter_iff. intros d.
    by rewrite bool_decide_eq_true.
  - apply (sublist_NoDup _ (map_to_list (tweets db)).*1).
    + apply NoDup_fst_map_to_list.
    + apply fmap_sublist, sublist_filter.
Qed.

Lemma sorted_query db cond :
  feed_of db (λ i t, cond (i, t) = true) None
    (sort_createdAt_desc (Tweet_find cond db)).
Proof.
  pose proof newer_first_total. pose proof newer_first_trans.
  unfold sort_createdAt_desc.
  split; [apply StronglySorted_merge_sort; apply _|].
  split; [rewrite merge_sort_Permutation; apply NoDup_Tweet_find|].
  split.
  { intros d. rewrite merge_sort_Permutation, elem_of_Tweet_find.
    by destruct d. }
  split; [|done].
  intros i t Hi Hc. left.
  rewrite merge_sort_Permutation. by apply elem_of_Tweet_find.
Qed.

Lemma feed_of_limit db wanted n posts :
  feed_of db wanted None posts →
  feed_of db wanted (Some n) (limit n posts).
Proof.
  intros (Hs & Hnd & Hin & Hall & _). unfold limit.
  assert (StronglySorted newer_first (take n posts ++ drop n posts)) as Hs'.
  { by rewrite take_drop. }
  split; [by apply StronglySorted_app_1_l in Hs'|].
  split; [eapply sublist_NoDup; [done | apply sublist_take]|].
  split; [intros d Hd; apply Hin; by eapply subseteq_take|].
  split.
  - intros i t Hi Hw. destruct (Hall i t Hi Hw) as [Hd | [? _]]; [|done].
    rewrite <- (take_drop n posts) in Hd.
    apply elem_of_app in Hd as [Hd | Hd]; [by left | right].
    assert (n ≤ length posts) as Hle.
    { destruct (decide (n ≤ length posts)); [done|].
      rewrite drop_ge in Hd by lia. by apply elem_of_nil in Hd. }
    split; [by rewrite length_take_le|].
    intros x Hx.
    apply (StronglySorted_app_1_elem_of _ _ _ x (i, t) Hs' Hx Hd).
  - intros m [= <-]. rewrite length_take. lia.
Qed.

Lemma limited_query db cond n :
  feed_of db (λ i t, cond (i, t) = true) (Some n)
    (limit n (sort_createdAt_desc (Tweet_find cond db))).
Proof. apply feed_of_limit, sorted_query. Qed.

Lemma feed_of_weaken db (P Q : nat → Tweet.doc → Prop) cap posts :
  (∀ i t, P i t ↔ Q i t) → feed_of db P cap posts → feed_of db Q cap posts.
Proof.
  intros HPQ (Hs & Hnd & Hin & Hall & Hcap).
  repeat split; try done.
  - by apply Hin.
  - apply HPQ. by apply Hin.
  - intros i t Hi Hq. apply Hall; [done|]. by apply HPQ.
Qed.

Lemma formatted_decorated db (viewer : option nat) liked retweeted ref
    (posts : list (nat * Tweet.doc)) :
  (∀ t, liked t = viewer_in viewer (Tweet.likes t)) →
  (∀ t, retweeted t = viewer_in viewer (Tweet.retweets t)) →
  Forall2 (decorated db viewer) posts
    (with_replyCounts db (map (format db liked retweeted ref) posts)).
Proof.
  intros Hl Hr. unfold with_replyCounts.
  induction posts as [|d posts IH]; simpl; constructor; [|done].
  unfold decorated; simpl.
  rewrite Tweet_countDocuments_replies, Hl, Hr. done.
Qed.

Lemma viewer_flag_in (req_user : option ReqUser) (l : list nat) :
  viewer_flag req_user l = viewer_in (_id <$> req_user) l.
Proof. by destruct req_user. Qed.

End feeds.

(** C2.  For an authenticated user U, the timeline answers 200 with the
    decorated feed of the stored posts whose author is U or one of U's
    followees and whose replyTo is null: newest first, at most 50, a wanted
    post being left out only when 50 at least as new ones are listed; each
    entry carries isLiked and isRetweeted relative to U and, as replyCount,
    the number of stored posts whose replyTo is its id. *)
Theorem timeline_feed (db : Db) (req_user : ReqUser) (u : User.doc) :
  users db !! (_id req_user) = Some u →
  ∃ posts fl,
    timeline db req_user = Json 200 (TweetList fl)
    ∧ feed_of db
        (λ _ t, (Tweet.user t = _id req_user
                 ∨ Tweet.user t ∈ User.following u)
                ∧ Tweet.replyTo t = None)
        (Some 50) posts
    ∧ Forall2 (decorated db (Some (_id req_user))) posts fl.
Proof.
  intros Hu. unfold timeline, User_findById. rewrite Hu.
  eexists _, _. split; [reflexivity|]. split; last first.
  { by apply formatted_decorated. }
  eapply feed_of_weaken; [|apply limited_query]. intros i t.
  cbv beta. cbn [snd].
  rewrite andb_true_iff, includes_true, bool_decide_eq_true.
  rewrite elem_of_app, list_elem_of_singleton. naive_solver.
Qed.

Lemma timeline_feed_witness :
  ∃ posts fl,
    timeline one_post (MkReqUser 2 bob) = Json 200 (TweetList fl)
    ∧ feed_of one_post
        (λ _ t, (Tweet.user t = 2 ∨ Tweet.user t ∈ User.following bob)
                ∧ Tweet.replyTo t = None)
        (Some 50) posts
    ∧ Forall2 (decorated one_post (Some 2)) posts fl.
Proof.
  apply (timeline_feed one_post (MkReqUser 2 bob) bob). reflexivity.
Defined.

Lemma decorated_listed (db : Db) (viewer : option nat)
    (posts : list (nat * Tweet.doc)) (fl : list Formatted) :
  (∀ d, d ∈ posts → tweets db !! d.1 = Some d.2) →
  Forall2 (decorated db viewer) posts fl →
  listed_flags db viewer fl.
Proof.
  intros Hin HF f Hf.
  induction HF as [|d f' posts fl Hd HF IH]; [by apply elem_of_nil in Hf|].
  apply elem_of_cons in Hf as [-> | Hf].
  - exists d.2. destruct Hd as (Hid & _ & _ & _ & _ & Hl & Hr & _).
    rewrite Hid, Hl, Hr. split; [apply Hin; left|].
    split; [done|]. split; [done|]. by intros ->.
  - apply IH; [|done]. intros d' Hd'. apply Hin. by right.
Qed.

Lemma feed_of_stored (db : Db) wanted cap
    (posts : list (nat * Tweet.doc)) :
  feed_of db wanted cap posts →
  ∀ d, d ∈ posts → tweets db !! d.1 = Some d.2.
Proof. intros (_ & _ & Hin & _) d Hd. by apply Hin. Qed.

Lemma search_with_answer (db : Db) (req_user : option ReqUser)
    (matches : string → bool) :
  decorated_feed db (_id <$> req_user)
    (λ _ t, matches (Tweet.content t) = true) (Some 50)
    (search_with matches db req_user).
Proof.
  unfold search_with. eexists _, _. split; [reflexivity|]. split; last first.
  { apply formatted_decorated; intros t; apply viewer_flag_in. }
  apply limited_query.
Qed.

Lemma searchTweets_pattern (other : string → option (string → bool))
    (db : Db) (req_user : option ReqUser) (q : string) (r : Regex.re) :
  q ≠ EmptyString → Regex.compile q = Regex.Pattern r →
  searchTweets other db req_user (Some q)
  = search_with (Regex.search r) db req_user.
Proof.
  intros Hq Hr. unfold searchTweets.
  destruct q as [|c q]; [done|].
  change (JsString.truthy (String c q)) with true. cbn [negb].
  by rewrite Hr.
Qed.

(** Whatever the query, the search answers 400, 500, or what the handler
    makes of some test of the contents. *)
Lemma searchTweets_cases (other : string → option (string → bool))
    (db : Db) (req_user : option ReqUser) (q : option string) :
  searchTweets other db req_user q
  = Json 400 (Message "Search query is required")
  ∨ searchTweets other db req_user q = server_error
  ∨ ∃ matches,
      searchTweets other db req_user q = search_with matches db req_user.
Proof.
  unfold searchTweets. destruct q as [q|]; [|by left].
  destruct (negb _); [by left|].
  destruct (Regex.compile q); [right; right; eauto | right; by left |].
  destruct (other q); [right; right; eauto | right; by left].
Qed.

Lemma decorated_feed_flags (db : Db) (viewer : option nat) wanted cap r :
  decorated_feed db viewer wanted cap r →
  ∀ fl, r = Json 200 (TweetList fl) → listed_flags db viewer fl.
Proof.
  intros (posts & fl' & -> & Hfeed & Hdec) fl [= <-].
  eapply decorated_listed; [|done]. by eapply feed_of_stored.
Qed.

(** C5.  The answers of timeline, explore, search and replies are the
    feeds of these routes (all the wanted posts, up to the cap) decorated
    for the viewer: every entry is a stored post P whose isLiked is
    (V ∈ P.likes) and whose isRetweeted is (V ∈ P.retweets) for the
    authenticated viewer V, and both are false when the request has no
    authenticated viewer.  For search this holds whatever the test that
    the database makes of the pattern; every query, also one outside the
    modelled part of the pattern language, is answered 400, 500 or in this
    way, and a pattern of the modelled part is answered in this way. *)
Theorem listing_viewer_flags (db : Db) (req_user : option ReqUser) :
  let viewer := _id <$> req_user in
  let flags (v : option ObjectId) (r : Response) : Prop :=
    ∀ fl, r = Json 200 (TweetList fl) →
      listed_flags db v fl
      ∧ (v = None →
         Forall (λ f, isLiked f = false ∧ isRetweeted f = false) fl) in
  (∀ ru u, users db !! (_id ru) = Some u →
     decorated_feed db (Some (_id ru))
       (λ _ t, (Tweet.user t = _id ru ∨ Tweet.user t ∈ User.following u)
               ∧ Tweet.replyTo t = None)
       (Some 50) (timeline db ru)
     ∧ flags (Some (_id ru)) (timeline db ru))
  ∧ (decorated_feed db viewer (λ _ t, Tweet.replyTo t = None) (Some 50)
       (explore db req_user)
     ∧ flags viewer (explore db req_user))
  ∧ (∀ matches,
       decorated_feed db viewer (λ _ t, matches (Tweet.content t) = true)
         (Some 50) (search_with matches db req_user)
       ∧ flags viewer (search_with matches db req_user))
  ∧ (∀ other q,
       flags viewer (searchTweets other db req_user q)
       ∧ (searchTweets other db req_user q
          = Json 400 (Message "Search query is required")
          ∨ searchTweets other db req_user q = server_error
          ∨ ∃ matches,
              searchTweets other db req_user q
              = search_with matches db req_user))
  ∧ (∀ other q r, q ≠ EmptyString → Regex.compile q = Regex.Pattern r →
       searchTweets other db req_user (Some q)
       = search_with (Regex.search r) db req_user)
  ∧ (∀ id,
       decorated_feed db viewer (λ _ t, Tweet.replyTo t = Some id) None
         (getReplies db req_user id)
       ∧ flags viewer (getReplies db req_user id)).
Proof.
  intros viewer flags.
  assert (∀ v wanted cap r, decorated_feed db v wanted cap r →
            decorated_feed db v wanted cap r ∧ flags v r) as Hflags.
  { intros v wanted cap r Hr. split; [done|]. intros fl Hfl.
    pose proof (decorated_feed_flags db v wanted cap r Hr fl Hfl) as Hl.
    split; [done|]. intros Hv. apply Forall_forall. intros f Hf.
    destruct (Hl f Hf) as (t & _ & _ & _ & Hnone). by apply Hnone. }
  split; [|split; [|split; [|split; [|split]]]].
  - intros ru u Hu. apply Hflags.
    unfold timeline, User_findById. rewrite Hu.
    eexists _, _. split; [reflexivity|]. split; last first.
    { by apply formatted_decorated. }
    eapply feed_of_weaken; [|apply limited_query]. intros i t.
    cbv beta. cbn [snd].
    rewrite andb_true_iff, includes_true, bool_decide_eq_true.
    rewrite elem_of_app, list_elem_of_singleton. naive_solver.
  - apply Hflags. unfold explore.
    eexists _, _. split; [reflexivity|]. split; last first.
    { apply formatted_decorated; intros t; apply viewer_flag_in. }
    eapply feed_of_weaken; [|apply limited_query]. intros i t.
    cbv beta. cbn [snd]. by rewrite bool_decide_eq_true.
  - intros matches. apply Hflags, search_with_answer.
  - intros other q. split; [|apply searchTweets_cases].
    destruct (searchTweets_cases other db req_user q)
      as [-> | [-> | [matches ->]]]; [done | done |].
    apply (Hflags _ _ _ _ (search_with_answer db req_user matches)).
  - intros other. apply searchTweets_pattern.
  - intros id. apply Hflags. unfold getReplies.
    eexists _, _. split; [reflexivity|]. split; last first.
    { apply formatted_decorated; intros t; apply viewer_flag_in. }
    eapply feed_of_weaken; [|apply sorted_query]. intros i t.
    cbv beta. cbn [snd]. by rewrite bool_decide_eq_true.
Qed.

Lemma listing_viewer_flags_witness :
  ∃ fl,
    timeline liked_post (MkReqUser 2 bob) = Json 200 (TweetList fl)
    ∧ f_id <$> fl = [10]
    ∧ isLiked <$> fl = [true]
    ∧ isRetweeted <$> fl = [false]
    ∧ listed_flags liked_post (Some 2) fl.
Proof.
  destruct (proj1 (listing_viewer_flags liked_post None) (MkReqUser 2 bob)
              bob eq_refl) as [(posts & fl & Hfl & _ & _) Hflags].
  exists fl. split; [exact Hfl|].
  destruct (Hflags fl Hfl) as [Hlisted _].
  vm_compute in Hfl. injection Hfl as <-.
  repeat split; exact Hlisted.
Defined.

(** ** Searching *)

Section substrings.

Implicit Types (p q s : string).









End substrings.

(** ** The regular-expression engine *)

Section regex.

Import Regex.

Implicit Types (r : re) (s m : string) (c : ascii).

















End regex.




(** The modelled part of the pattern language on some queries. *)
Example compile_examples :
  Regex.compile "hel+o"
  = Regex.Pattern
      (Regex.sequence
         [Regex.Lit "h"; Regex.Lit "e";
          Regex.Seq (Regex.Lit "l") (Regex.Star (Regex.Lit "l"));
          Regex.Lit "o"])
  ∧ Regex.compile "a\.b" = Regex.Pattern
      (Regex.sequence [Regex.Lit "a"; Regex.Lit "."; Regex.Lit "b"])
  ∧ Regex.compile "(ab)*?c"
    = Regex.Pattern
        (Regex.sequence
           [Regex.Star (Regex.sequence [Regex.Lit "a"; Regex.Lit "b"]);
            Regex.Lit "c"])
  ∧ Regex.compile "(" = Regex.Invalid
  ∧ Regex.compile ")" = Regex.Invalid
  ∧ Regex.compile "*a" = Regex.Invalid
  ∧ Regex.compile "a\" = Regex.Invalid
  ∧ Regex.compile "^a" = Regex.Unmodelled
  ∧ Regex.compile "[ab]" = Regex.Unmodelled
  ∧ Regex.compile "a{2}" = Regex.Unmodelled
  ∧ Regex.compile "\d" = Regex.Unmodelled
  ∧ Regex.compile "(?i)a" = Regex.Unmodelled
  ∧ Regex.compile "a*+" = Regex.Unmodelled.
Proof. vm_compute. repeat split. Qed.

Example search_examples :
  Regex.search
    (Regex.sequence
       [Regex.Lit "h"; Regex.Lit "e";
        Regex.Seq (Regex.Lit "l") (Regex.Star (Regex.Lit "l"));
        Regex.Lit "o"]) "Say HELLLO"
  = true
  ∧ Regex.search
      (Regex.sequence
         [Regex.Lit "h"; Regex.Lit "e";
          Regex.Seq (Regex.Lit "l") (Regex.Star (Regex.Lit "l"));
          Regex.Lit "o"]) "heo"
    = false
  ∧ Regex.search (Regex.sequence [Regex.Lit "."]) "hello" = false.
Proof. vm_compute. repeat split. Qed.

(** ** Profiles *)

Lemma User_findOne_unique (db : Db) (uid : nat) (u : User.doc) :
  unique_usernames db → users db !! uid = Some u →
  User_findOne db (User.username u) = Some (uid, u).
Proof.
  intros Huniq Hu. unfold User_findOne.
  assert ((uid, u) ∈ map_to_list (users db)) as Hin.
  { by apply elem_of_map_to_list. }
  destruct (list_find_elem_of
              (λ d : nat * User.doc, User.username d.2 = User.username u)
              (map_to_list (users db)) (uid, u) Hin eq_refl)
    as [[i [j x]] Hfind].
  rewrite Hfind. simpl.
  apply list_find_Some in Hfind as (Hl & Hname & _). simpl in Hname.
  apply list_elem_of_lookup_2, elem_of_map_to_list in Hl.
  assert (j = uid) as -> by (by eapply Huniq).
  congruence.
Qed.

(** C9.  For an existing user U (usernames being unique), the profile
    lookup by U's username answers 200, with or without a viewer, and the
    payload carries U's email address next to the public fields, the counts
    of followers, followees and authored posts, and isFollowing exactly
    when there is a viewer. *)
Theorem profile_includes_email
    (db : Db) (req_user : option ReqUser) (uid : nat) (u : User.doc) :
  unique_usernames db → users db !! uid = Some u →
  ∃ d, getUserProfile db req_user (User.username u) = Json 200 (Profile d)
    ∧ d_email d = User.email u
    ∧ d_id d = uid
    ∧ d_name d = User.name u
    ∧ d_username d = User.username u
    ∧ d_bio d = User.bio u
    ∧ d_location d = User.location u
    ∧ d_website d = User.website u
    ∧ d_profileImage d = User.profileImage u
    ∧ d_followers d = length (User.followers u)
    ∧ d_following d = length (User.following u)
    ∧ tweetsCount d
      = size (filter (λ x, Tweet.user x.2 = uid) (tweets db))
    ∧ isFollowing d
      = (λ r, bool_decide (_id r ∈ User.followers u)) <$> req_user.
Proof.
  intros Huniq Hu. unfold getUserProfile.
  rewrite (User_findOne_unique db uid u Huniq Hu).
  eexists. split; [reflexivity|]. simpl.
  repeat split; try done.
  unfold Tweet_countDocuments, Tweet_find.
  rewrite map_filter_alt, map_size_list_to_map.
  - f_equal. apply list_filter_iff. intros x.
    by rewrite bool_decide_eq_true.
  - apply (sublist_NoDup _ (map_to_list (tweets db)).*1).
    + apply NoDup_fst_map_to_list.
    + apply fmap_sublist, sublist_filter.
Qed.

Lemma unique_usernames_two_users : unique_usernames one_post.
Proof.
  intros i j ui uj Hi Hj Hname. simpl in Hi, Hj.
  apply lookup_insert_Some in Hi as [[<- <-] | [? Hi]];
    apply lookup_insert_Some in Hj as [[<- <-] | [? Hj]]; try done.
  - apply lookup_insert_Some in Hj as [[<- <-] | [? Hj]]; done.
  - apply lookup_insert_Some in Hi as [[<- <-] | [? Hi]]; done.
  - apply lookup_insert_Some in Hi as [[<- <-] | [? Hi]];
      apply lookup_insert_Some in Hj as [[<- <-] | [? Hj]]; done.
Qed.

(** ** The theorems at work on sample data *)

Lemma follow_unfollow_mirror_witness :
  1 ∈ followers_of (follow two_users (MkReqUser 1 alice) 2).1 2
  ∧ users (unfollow (follow two_users (MkReqUser 1 alice) 2).1
             (MkReqUser 1 alice) 2).1
    = users two_users.
Proof.
  destruct (follow_unfollow_mirror two_users (MkReqUser 1 alice) 2 alice bob)
    as ((_ & Hin & _) & _ & _ & Hback).
  - simpl. lia.
  - reflexivity.
  - reflexivity.
  - simpl. apply not_elem_of_nil.
  - split; [exact Hin|]. apply Hback. simpl. apply not_elem_of_nil.
Defined.

Lemma like_unlike_round_trip_witness :
  1 ∈ likes_of (likeTweet one_post (MkReqUser 1 alice) 10).1 10
  ∧ tweets (unlikeTweet (likeTweet one_post (MkReqUser 1 alice) 10).1
              (MkReqUser 1 alice) 10).1
    = tweets one_post.
Proof.
  destruct (like_unlike_round_trip one_post (MkReqUser 1 alice) 10 hello)
    as (_ & Hin & _ & _ & Hback).
  - reflexivity.
  - simpl. apply not_elem_of_nil.
  - exact (conj Hin Hback).
Defined.

Lemma deleteTweet_cascade_witness :
  tweets (deleteTweet thread (MkReqUser 2 bob) 10).1 !! 10 = None
  ∧ tweets (deleteTweet thread (MkReqUser 2 bob) 10).1 !! 11 = None
  ∧ tweets (deleteTweet thread (MkReqUser 2 bob) 10).1 !! 12
    = Some hello_again.
Proof.
  destruct (proj2 (proj2 (deleteTweet_cascade thread (MkReqUser 2 bob) 10))
              hello eq_refl eq_refl) as (_ & _ & _ & _ & Hthread).
  apply (Hthread 11 hello_reply 12 hello_again);
    first [reflexivity | simpl; lia].
Defined.


Lemma profile_includes_email_witness :
  ∃ d, getUserProfile one_post None "alice" = Json 200 (Profile d)
    ∧ d_email d = "alice@example.org".
Proof.
  destruct (profile_includes_email one_post None 1 alice
              unique_usernames_two_users eq_refl) as (d & Hd & Hemail & _).
  exists d. exact (conj Hd Hemail).
Defined.

(** The scenarios of the specification, run on the model. *)

Example timeline_single_post :
  timeline one_post (MkReqUser 2 bob)
  = Json 200 (TweetList
      [MkFormatted 10 "hello"
         (Some (MkPopulatedUser 2 "Bob" "bob" EmptyString))
         100 0 0 0 false false None]).
Proof. vm_compute. reflexivity. Qed.

Example explore_top_level_newest_first :
  f_id <$> match explore (with_tweets (<[13 := new_post 1 "later" 200]>
                                         (tweets thread)) thread) None with
           | Json _ (TweetList fl) => fl
           | _ => []
           end
  = [13; 10].
Proof. vm_compute. reflexivity. Qed.

Example like_shows_in_timeline :
  let db1 := (handle one_post (Some 1) (PostFollow (MkRouteParam 2 true))).1 in
  let db2 := (handle db1 (Some 1) (PostLike 10)).1 in
  (isLiked <$> match timeline db1 (MkReqUser 1 alice) with
               | Json _ (TweetList fl) => fl
               | _ => []
               end) = [false]
  ∧ (isLiked <$> match timeline db2 (MkReqUser 1 alice) with
                 | Json _ (TweetList fl) => fl
                 | _ => []
                 end) = [true]
  ∧ notifications db2
    = [Notification.Doc 2 1 Notification.follow None false
         "Alice started following you";
       Notification.Doc 2 1 Notification.like (Some 10) false
         "Alice liked your chirp"].
Proof. vm_compute. repeat split. Qed.

Example padded_content_lengths :
  String.length padded_content = 281
  ∧ String.length (JsString.trim padded_content) = 1
  ∧ JsString.trim ("  hello world " +:+ String (ascii_of_nat 9) EmptyString)
    = "hello world".
Proof. vm_compute. repeat split. Qed.

(** * Further properties of the routers *)

(** ** Refused follow and unfollow requests *)

(** X1.  A follow request is refused, the database staying as it is, with
    404 when the target is not stored and with 400 "Already following this
    user" when the requester is among the target's followers.  When the
    target is the requester (not among their own followers), the request
    is refused with 400 "You cannot follow yourself" if the parameter is
    the canonical rendering of the id; with another spelling of the same
    id the string comparison of the route fails, the request answers 200
    and the requester becomes their own follower.  A follow repeated after
    a successful one is refused as already following. *)
Theorem follow_refusals (db : Db) (req_user : ReqUser) (param : RouteParam) :
  (users db !! casts_to param = None →
   followRoute db req_user param
   = (db, Json 404 (Message "User not found")))
  ∧ (∀ b, users db !! casts_to param = Some b →
       _id req_user ∈ User.followers b →
       followRoute db req_user param
       = (db, Json 400 (Message "Already following this user")))
  ∧ (∀ b, users db !! casts_to param = Some b →
       _id req_user ∉ User.followers b →
       _id req_user = casts_to param →
       if canonical param then
         followRoute db req_user param
         = (db, Json 400 (Message "You cannot follow yourself"))
       else
         (followRoute db req_user param).2
         = Json 200 (Message "User followed successfully")
         ∧ _id req_user
           ∈ followers_of (followRoute db req_user param).1 (_id req_user))
  ∧ (∀ a b, toString_is (_id req_user) param = false →
       users db !! (_id req_user) = Some a →
       users db !! casts_to param = Some b →
       _id req_user ∉ User.followers b →
       (followRoute db req_user param).2
       = Json 200 (Message "User followed successfully")
       ∧ followRoute (followRoute db req_user param).1 req_user param
         = ((followRoute db req_user param).1,
            Json 400 (Message "Already following this user"))).
Proof.
  split; [|split; [|split]].
  - intros H. unfold followRoute, User_findById. by rewrite H.
  - intros b H Hin. unfold followRoute, User_findById. rewrite H.
    apply includes_true in Hin. by rewrite Hin.
  - intros b H Hin Hself. unfold followRoute, toString_is, User_findById.
    rewrite H. apply includes_false in Hin. rewrite Hin.
    rewrite (bool_decide_eq_true_2 _ Hself).
    destruct (canonical param); simpl; [done|].
    rewrite Hself, lookup_insert_eq. simpl. split; [done|].
    unfold followers_of. simpl. rewrite lookup_insert_eq. simpl.
    set_solver.
  - intros a b Hts Ha Hb Hin.
    assert (∃ cur,
      followRoute db req_user param
      = (Notification_create
           (User_save
              (User_save db (casts_to param)
                 (User.set_followers (User.followers b ++ [_id req_user]) b))
              (_id req_user)
              (User.set_following (User.following cur ++ [casts_to param])
                 cur))
           (Notification.Doc (casts_to param) (_id req_user)
              Notification.follow None false
              (User.name (profile req_user) +:+ " started following you")),
         Json 200 (Message "User followed successfully"))
      ∧ (_id req_user = casts_to param →
         _id req_user ∈ User.followers cur)) as (cur & -> & Hcur).
    { unfold followRoute at 1. unfold User_findById. rewrite Hb.
      apply includes_false in Hin. rewrite Hin, Hts. simpl.
      destruct (decide (_id req_user = casts_to param)) as [He|Hne].
      - rewrite He, lookup_insert_eq. eexists. split; [reflexivity|].
        intros _. simpl. set_solver.
      - rewrite lookup_insert_ne, Ha by done. eexists.
        split; [reflexivity|]. done. }
    split; [done|]. cbn [fst].
    unfold followRoute, User_findById. simpl.
    destruct (decide (_id req_user = casts_to param)) as [He|Hne].
    + rewrite <- He at 1. rewrite lookup_insert_eq. simpl.
      assert (includes (User.followers cur) (_id req_user) = true) as ->
        by (apply includes_true; auto).
      done.
    + rewrite lookup_insert_ne, lookup_insert_eq by done. simpl.
      assert (includes (User.followers b ++ [_id req_user]) (_id req_user)
              = true) as -> by (apply includes_true; set_solver).
      done.
Qed.

Lemma follow_refusals_witness :
  (followRoute two_users (MkReqUser 1 alice) (MkRouteParam 1 true)
   = (two_users, Json 400 (Message "You cannot follow yourself")))
  ∧ (followRoute two_users (MkReqUser 1 alice) (MkRouteParam 1 false)).2
    = Json 200 (Message "User followed successfully")
  ∧ followRoute
      (followRoute two_users (MkReqUser 1 alice) (MkRouteParam 2 true)).1
      (MkReqUser 1 alice) (MkRouteParam 2 true)
    = ((followRoute two_users (MkReqUser 1 alice) (MkRouteParam 2 true)).1,
       Json 400 (Message "Already following this user")).
Proof.
  split; [|split].
  - apply (proj1 (proj2 (proj2 (follow_refusals two_users (MkReqUser 1 alice)
                                  (MkRouteParam 1 true)))) alice).
    + reflexivity.
    + simpl. apply not_elem_of_nil.
    + reflexivity.
  - apply (proj1 (proj2 (proj2 (follow_refusals two_users (MkReqUser 1 alice)
                                  (MkRouteParam 1 false)))) alice).
    + reflexivity.
    + simpl. apply not_elem_of_nil.
    + reflexivity.
  - apply (proj2 (proj2 (proj2 (follow_refusals two_users (MkReqUser 1 alice)
                                  (MkRouteParam 2 true)))) alice bob).
    + reflexivity.
    + reflexivity.
    + reflexivity.
    + simpl. apply not_elem_of_nil.
Defined.

(** X2.  An unfollow request is refused, the database staying as it is,
    with 404 when the target is not stored and with 400 "You are not
    following this user" when the requester is not among the target's
    followers; this is the answer to an unfollow repeated after a
    successful one. *)
Theorem unfollow_refusals (db : Db) (req_user : ReqUser) (id : nat) :
  (users db !! id = None →
   unfollow db req_user id = (db, Json 404 (Message "User not found")))
  ∧ (∀ b, users db !! id = Some b → _id req_user ∉ User.followers b →
       unfollow db req_user id
       = (db, Json 400 (Message "You are not following this user")))
  ∧ (∀ a b, _id req_user ≠ id → users db !! (_id req_user) = Some a →
       users db !! id = Some b → _id req_user ∈ User.followers b →
       (unfollow db req_user id).2
       = Json 200 (Message "User unfollowed successfully")
       ∧ unfollow (unfollow db req_user id).1 req_user id
         = ((unfollow db req_user id).1,
            Json 400 (Message "You are not following this user"))).
Proof.
  split; [|split].
  - intros H. unfold unfollow, User_findById. by rewrite H.
  - intros b H Hin. unfold unfollow, User_findById. rewrite H.
    apply includes_false in Hin. by rewrite Hin.
  - intros a b Hne Ha Hb Hin.
    rewrite (unfollow_ok db req_user id a b Hne Ha Hb Hin). simpl.
    split; [done|].
    unfold unfollow, User_findById. simpl.
    rewrite lookup_insert_ne, lookup_insert_eq by done. simpl.
    assert (includes (without (_id req_user) (User.followers b))
              (_id req_user) = false) as ->
      by (apply includes_false, without_not_elem).
    done.
Qed.

Lemma unfollow_refusals_witness :
  unfollow two_users (MkReqUser 1 alice) 2
  = (two_users, Json 400 (Message "You are not following this user")).
Proof.
  apply (proj1 (proj2 (unfollow_refusals two_users (MkReqUser 1 alice) 2))
           bob).
  - reflexivity.
  - simpl. apply not_elem_of_nil.
Defined.

(** ** Likes and retweets *)

(** X3.  A like is answered 404 when the post is not stored and 400 "Tweet
    already liked" when the requester is in its like set; an unlike is
    answered 404 when the post is not stored and 400 "Tweet not liked" when
    the requester is not in its like set.  None of these requests changes
    the database, and a like repeated after a successful one is refused. *)
Theorem like_refusals (db : Db) (req_user : ReqUser) (id : nat) :
  (tweets db !! id = None →
   likeTweet db req_user id = (db, Json 404 (Message "Tweet not found"))
   ∧ unlikeTweet db req_user id
     = (db, Json 404 (Message "Tweet not found")))
  ∧ (∀ t, tweets db !! id = Some t → _id req_user ∈ Tweet.likes t →
       likeTweet db req_user id
       = (db, Json 400 (Message "Tweet already liked")))
  ∧ (∀ t, tweets db !! id = Some t → _id req_user ∉ Tweet.likes t →
       unlikeTweet db req_user id = (db, Json 400 (Message "Tweet not liked"))
       ∧ likeTweet (likeTweet db req_user id).1 req_user id
         = ((likeTweet db req_user id).1,
            Json 400 (Message "Tweet already liked"))).
Proof.
  split; [|split].
  - intros H. unfold likeTweet, unlikeTweet, Tweet_findById. by rewrite H.
  - intros t H Hin. unfold likeTweet, Tweet_findById. rewrite H.
    apply includes_true in Hin. by rewrite Hin.
  - intros t H Hin. split.
    + unfold unlikeTweet, Tweet_findById. rewrite H.
      apply includes_false in Hin. by rewrite Hin.
    + destruct (likeTweet_ok db req_user id t H Hin) as (db1 & H1 & _ & Ht).
      rewrite H1. simpl. unfold likeTweet, Tweet_findById.
      rewrite Ht, lookup_insert_eq. simpl.
      assert (includes (Tweet.likes t ++ [_id req_user]) (_id req_user)
              = true) as -> by (apply includes_true; set_solver).
      done.
Qed.

Lemma like_refusals_witness :
  likeTweet liked_post (MkReqUser 1 alice) 10
  = (liked_post, Json 400 (Message "Tweet already liked")).
Proof.
  apply (proj1 (proj2 (like_refusals liked_post (MkReqUser 1 alice) 10))
           (Tweet.set_likes [1; 2] hello)).
  - reflexivity.
  - simpl. set_solver.
Defined.

Section retweets.

Variables (db : Db) (req_user : ReqUser) (id : nat) (t : Tweet.doc).
Hypothesis Hpost : tweets db !! id = Some t.

Lemma retweetTweet_ok :
  _id req_user ∉ Tweet.retweets t →
  ∃ db', retweetTweet db req_user id
         = (db', Json 200 (Message "Tweet retweeted successfully"))
    ∧ users db' = users db
    ∧ tweets db'
      = <[id := Tweet.set_retweets (Tweet.retweets t ++ [_id req_user]) t]>
          (tweets db)
    ∧ notifications db'
      = if bool_decide (Tweet.user t ≠ _id req_user)
        then notifications db
             ++ [Notification.Doc (Tweet.user t) (_id req_user)
                   Notification.retweet (Some id) false
                   (User.name (profile req_user)
                      +:+ " retweeted your chirp")]
        else notifications db.
Proof.
  intros Hn. unfold retweetTweet, Tweet_findById. rewrite Hpost.
  apply includes_false in Hn. rewrite Hn.
  eexists; split; [reflexivity|]. simpl. by case_bool_decide.
Qed.

Lemma unretweetTweet_ok :
  _id req_user ∈ Tweet.retweets t →
  unretweetTweet db req_user id
  = (Tweet_save db id
       (Tweet.set_retweets (without (_id req_user) (Tweet.retweets t)) t),
     Json 200 (Message "Tweet unretweeted successfully")).
Proof.
  intros Hn. unfold unretweetTweet, Tweet_findById. rewrite Hpost.
  apply includes_true in Hn. by rewrite Hn.
Qed.

End retweets.

(** X4.  For a stored post that the requester has not retweeted, the
    retweet succeeds, puts the requester in the retweet set and stores one
    "retweet" notification for the author when the author is someone else
    (none otherwise); the unretweet that follows succeeds and gives back
    the retweet set of before the retweet.  The like set and the fields of
    the post that no route rewrites are as before, the other posts and the
    users are untouched, and the notification stays stored.  (The post has
    been saved twice, so its [updatedAt], which is not modelled, is not
    claimed to be restored.) *)
Theorem retweet_unretweet_round_trip
    (db : Db) (req_user : ReqUser) (id : nat) (t : Tweet.doc) :
  tweets db !! id = Some t →
  _id req_user ∉ Tweet.retweets t →
  let r1 := retweetTweet db req_user id in
  let r2 := unretweetTweet r1.1 req_user id in
  r1.2 = Json 200 (Message "Tweet retweeted successfully")
  ∧ (Tweet.retweets <$> tweets r1.1 !! id)
    = Some (Tweet.retweets t ++ [_id req_user])
  ∧ notifications r1.1
    = (if bool_decide (Tweet.user t ≠ _id req_user)
       then notifications db
            ++ [Notification.Doc (Tweet.user t) (_id req_user)
                  Notification.retweet (Some id) false
                  (User.name (profile req_user) +:+ " retweeted your chirp")]
       else notifications db)
  ∧ r2.2 = Json 200 (Message "Tweet unretweeted successfully")
  ∧ (∃ t', tweets r2.1 !! id = Some t'
       ∧ Tweet.retweets t' = Tweet.retweets t
       ∧ Tweet.likes t' = Tweet.likes t
       ∧ same_post t t')
  ∧ (∀ k, k ≠ id → tweets r2.1 !! k = tweets db !! k)
  ∧ users r2.1 = users db
  ∧ notifications r2.1 = notifications r1.1.
Proof.
  intros Hpost Hn r1 r2.
  destruct (retweetTweet_ok db req_user id t Hpost Hn)
    as (db1 & H1 & Hu & Ht & Hnot).
  subst r2 r1. rewrite H1; simpl.
  assert (tweets db1 !! id
          = Some (Tweet.set_retweets (Tweet.retweets t ++ [_id req_user]) t))
    as Hp1.
  { rewrite Ht. apply lookup_insert_eq. }
  rewrite (unretweetTweet_ok db1 req_user id _ Hp1) by (simpl; set_solver).
  simpl. rewrite without_push by done. rewrite Hp1. simpl.
  repeat split; try done.
  - eexists. rewrite lookup_insert_eq. split; [reflexivity|].
    by repeat split.
  - intros k Hk. by rewrite Ht, !lookup_insert_ne.
Qed.

Lemma retweet_unretweet_round_trip_witness :
  (Tweet.retweets
   <$> tweets (retweetTweet one_post (MkReqUser 1 alice) 10).1 !! 10)
  = Some [1]
  ∧ (∃ t',
       tweets (unretweetTweet (retweetTweet one_post (MkReqUser 1 alice) 10).1
                 (MkReqUser 1 alice) 10).1 !! 10 = Some t'
       ∧ Tweet.retweets t' = []
       ∧ Tweet.likes t' = []
       ∧ same_post hello t')
  ∧ length (notifications (retweetTweet one_post (MkReqUser 1 alice) 10).1)
    = 1.
Proof.
  destruct (retweet_unretweet_round_trip one_post (MkReqUser 1 alice) 10
              hello) as (_ & Hin & Hnot & _ & Hback & _).
  - reflexivity.
  - simpl. apply not_elem_of_nil.
  - split; [exact Hin|]. split; [exact Hback|]. rewrite Hnot. reflexivity.
Defined.

(** ** Refused requests change nothing *)

Section refusals.

Implicit Types (db : Db) (req_user : ReqUser).

Local Ltac run_handler :=
  repeat first
    [ progress simpl
    | match goal with
      | |- context [match ?x with _ => _ end] =>
          (is_var x; destruct x) || (destruct x eqn:?)
      end ];
  try (intros; done || lia).

Lemma followRoute_client_error db req_user param :
  client_error (followRoute db req_user param).2 →
  (followRoute db req_user param).1 = db.
Proof. unfold client_error, followRoute, toString_is. run_handler. Qed.

Lemma unfollow_client_error db req_user id :
  client_error (unfollow db req_user id).2 →
  (unfollow db req_user id).1 = db.
Proof. unfold client_error, unfollow. run_handler. Qed.

Lemma likeTweet_client_error db req_user id :
  client_error (likeTweet db req_user id).2 →
  (likeTweet db req_user id).1 = db.
Proof. unfold client_error, likeTweet. run_handler. Qed.

Lemma unlikeTweet_client_error db req_user id :
  client_error (unlikeTweet db req_user id).2 →
  (unlikeTweet db req_user id).1 = db.
Proof. unfold client_error, unlikeTweet. run_handler. Qed.

Lemma retweetTweet_client_error db req_user id :
  client_error (retweetTweet db req_user id).2 →
  (retweetTweet db req_user id).1 = db.
Proof. unfold client_error, retweetTweet. run_handler. Qed.

Lemma unretweetTweet_client_error db req_user id :
  client_error (unretweetTweet db req_user id).2 →
  (unretweetTweet db req_user id).1 = db.
Proof. unfold client_error, unretweetTweet. run_handler. Qed.

Lemma deleteTweet_client_error db req_user id :
  client_error (deleteTweet db req_user id).2 →
  (deleteTweet db req_user id).1 = db.
Proof. unfold client_error, deleteTweet. run_handler. Qed.

Lemma updateProfile_client_error db req_user name bio location website img :
  client_error (updateProfile db req_user name bio location website img).2 →
  (updateProfile db req_user name bio location website img).1 = db.
Proof. unfold client_error, updateProfile. run_handler. Qed.

Lemma createPost_client_error db req_user content replyTo oid now :
  client_error (createPost db req_user content replyTo oid now).2 →
  (createPost db req_user content replyTo oid now).1 = db.
Proof. unfold client_error, createPost, Tweet_insert. run_handler. Qed.

End refusals.

(** X5.  Whatever the request to a protected route that changes data: the
    answer has status 200, 201, 400, 401, 404 or 500; when the status is
    400, 401 or 404 the database is left exactly as it was; and a request
    without a valid token, or whose token names no stored user, is
    answered 401 before the handler runs. *)
Theorem client_errors_change_nothing
    (db : Db) (token : option nat) (r : Request) :
  let res := handle db token r in
  status res.2 ∈ [200; 201; 400; 401; 404; 500]
  ∧ (client_error res.2 → res.1 = db)
  ∧ (token = None →
     res = (db, Json 401 (Message "Not authorized to access this route")))
  ∧ (∀ uid, token = Some uid → users db !! uid = None →
       res = (db, Json 401 (Message "User not found"))).
Proof.
  intros res. subst res. split; [|split; [|split]].
  - unfold handle, protect, createPost, Tweet_insert, likeTweet, unlikeTweet,
      retweetTweet, unretweetTweet, deleteTweet, followRoute, unfollow,
      updateProfile.
    repeat first
      [ progress simpl
      | match goal with
        | |- context [match ?x with _ => _ end] =>
            (is_var x; destruct x) || (destruct x eqn:?)
        end ];
      set_solver.
  - unfold handle, protect.
    destruct token as [uid|]; [|done].
    destruct (User_findById db uid) as [u|]; [|done].
    destruct r;
      auto using createPost_client_error, likeTweet_client_error,
        unlikeTweet_client_error, retweetTweet_client_error,
        unretweetTweet_client_error, deleteTweet_client_error,
        followRoute_client_error, unfollow_client_error,
        updateProfile_client_error.
  - by intros ->.
  - intros uid -> Hu. unfold handle, protect, User_findById. by rewrite Hu.
Qed.

Lemma client_errors_change_nothing_witness :
  (handle one_post (Some 1) (DeleteTweet 10)).1 = one_post.
Proof.
  apply (proj1 (proj2 (client_errors_change_nothing one_post (Some 1)
                         (DeleteTweet 10)))).
  change (400 ≤ 401 < 500). lia.
Defined.

(** ** The follow graph stays mirrored *)

Section follow_graph_invariant.

Implicit Types (db : Db) (req_user : ReqUser).

Local Ltac run_handler :=
  repeat first
    [ progress simpl
    | match goal with
      | |- context [match ?x with _ => _ end] =>
          (is_var x; destruct x) || (destruct x eqn:?)
      end ];
  try done.

Lemma followers_of_save db k u x :
  followers_of (User_save db k u) x
  = if decide (x = k) then User.followers u else followers_of db x.
Proof.
  unfold followers_of, User_save; simpl. rewrite lookup_insert.
  repeat case_decide; by subst.
Qed.

Lemma following_of_save db k u x :
  following_of (User_save db k u) x
  = if decide (x = k) then User.following u else following_of db x.
Proof.
  unfold following_of, User_save; simpl. rewrite lookup_insert.
  repeat case_decide; by subst.
Qed.

Lemma follow_graph_ext db db' :
  (∀ x, followers_of db' x = followers_of db x) →
  (∀ x, following_of db' x = following_of db x) →
  follow_graph_ok db → follow_graph_ok db'.
Proof.
  intros Hfo Hfg (Hm & Hnd). unfold follow_graph_ok.
  setoid_rewrite Hfo. setoid_rewrite Hfg. done.
Qed.

Lemma follow_graph_same_users db db' :
  users db' = users db → follow_graph_ok db → follow_graph_ok db'.
Proof.
  intros Hu. apply follow_graph_ext; intros x;
    unfold followers_of, following_of; by rewrite Hu.
Qed.

(** The two sets that a successful follow extends, also when the target
    is the requester under another spelling of their id. *)
Lemma follow_sets db req_user param a b :
  toString_is (_id req_user) param = false →
  users db !! (_id req_user) = Some a →
  users db !! casts_to param = Some b →
  _id req_user ∉ User.followers b →
  ∀ x,
    followers_of (followRoute db req_user param).1 x
    = (if decide (x = casts_to param)
       then followers_of db (casts_to param) ++ [_id req_user]
       else followers_of db x)
    ∧ following_of (followRoute db req_user param).1 x
      = (if decide (x = _id req_user)
         then following_of db (_id req_user) ++ [casts_to param]
         else following_of db x).
Proof.
  intros Hts Ha Hb Hn x.
  unfold followRoute, User_findById. rewrite Hb.
  apply includes_false in Hn. rewrite Hn, Hts. simpl.
  destruct (decide (_id req_user = casts_to param)) as [He|Hne].
  - rewrite <- He in *. rewrite lookup_insert_eq. simpl.
    unfold followers_of, following_of. simpl. rewrite Hb.
    rewrite !lookup_insert. simpl.
    repeat case_decide; subst; simpl; try done.
  - rewrite lookup_insert_ne, Ha by done. simpl.
    unfold followers_of, following_of. simpl. rewrite Ha, Hb.
    rewrite !lookup_insert. simpl.
    repeat case_decide; subst; simpl; try done.
    + by rewrite Ha.
    + by rewrite Hb.
Qed.

(** The two sets that a successful unfollow shrinks, also when the target
    is the requester. *)
Lemma unfollow_sets db req_user id a b :
  users db !! (_id req_user) = Some a →
  users db !! id = Some b → _id req_user ∈ User.followers b →
  ∀ x,
    followers_of (unfollow db req_user id).1 x
    = (if decide (x = id) then without (_id req_user) (followers_of db id)
       else followers_of db x)
    ∧ following_of (unfollow db req_user id).1 x
      = (if decide (x = _id req_user)
         then without id (following_of db (_id req_user))
         else following_of db x).
Proof.
  intros Ha Hb Hn x.
  unfold unfollow, User_findById. rewrite Hb.
  apply includes_true in Hn. rewrite Hn. simpl.
  destruct (decide (_id req_user = id)) as [He|Hne].
  - rewrite <- He in *. rewrite lookup_insert_eq. simpl.
    unfold followers_of, following_of. simpl. rewrite Hb.
    rewrite !lookup_insert. simpl.
    repeat case_decide; subst; simpl; try done.
  - rewrite lookup_insert_ne, Ha by done. simpl.
    unfold followers_of, following_of. simpl. rewrite Ha, Hb.
    rewrite !lookup_insert. simpl.
    repeat case_decide; subst; simpl; try done.
    + by rewrite Ha.
    + by rewrite Hb.
Qed.

Lemma elem_of_without (l : list nat) (x y : nat) :
  y ∈ without x l ↔ y ≠ x ∧ y ∈ l.
Proof. unfold without. by rewrite list_elem_of_filter. Qed.

Lemma follow_graph_follow db req_user param a :
  users db !! (_id req_user) = Some a →
  follow_graph_ok db → follow_graph_ok (followRoute db req_user param).1.
Proof.
  intros Ha Hok.
  destruct (users db !! casts_to param) as [b|] eqn:Hb; last first.
  { unfold followRoute, User_findById. by rewrite Hb. }
  destruct (decide (_id req_user ∈ User.followers b)) as [Hin|Hn].
  { unfold followRoute, User_findById. rewrite Hb.
    apply includes_true in Hin. by rewrite Hin. }
  destruct (toString_is (_id req_user) param) eqn:Hts.
  { unfold followRoute, User_findById. rewrite Hb.
    apply includes_false in Hn. by rewrite Hn, Hts. }
  pose proof (follow_sets db req_user param a b Hts Ha Hb Hn) as Hsets.
  destruct Hok as (Hm & Hnd).
  assert (followers_of db (casts_to param) = User.followers b) as Hfb.
  { unfold followers_of. by rewrite Hb. }
  assert (casts_to param ∉ following_of db (_id req_user)) as Hn'.
  { rewrite <- Hm, Hfb. done. }
  split.
  - intros x y. destruct (Hsets y) as [-> _]. destruct (Hsets x) as [_ ->].
    pose proof (Hm x y) as Hxy.
    repeat case_decide; subst; rewrite ?elem_of_app, ?list_elem_of_singleton;
      naive_solver.
  - intros x. destruct (Hsets x) as [-> ->].
    destruct (Hnd x) as [H1 H2]. split; case_decide; subst; try done.
    + apply NoDup_app. split; [done|]. split; [|apply NoDup_singleton].
      intros y Hy ->%list_elem_of_singleton. by rewrite Hfb in Hy.
    + apply NoDup_app. split; [done|]. split; [|apply NoDup_singleton].
      intros y Hy ->%list_elem_of_singleton. done.
Qed.

Lemma follow_graph_unfollow db req_user id a :
  users db !! (_id req_user) = Some a →
  follow_graph_ok db → follow_graph_ok (unfollow db req_user id).1.
Proof.
  intros Ha Hok.
  destruct (users db !! id) as [b|] eqn:Hb; last first.
  { unfold unfollow, User_findById. by rewrite Hb. }
  destruct (decide (_id req_user ∈ User.followers b)) as [Hin|Hn]; last first.
  { unfold unfollow, User_findById. rewrite Hb.
    apply includes_false in Hn. by rewrite Hn. }
  destruct Hok as (Hm & Hnd).
  pose proof (unfollow_sets db req_user id a b Ha Hb Hin) as Hsets.
  split.
  - intros x y. destruct (Hsets y) as [-> _]. destruct (Hsets x) as [_ ->].
    pose proof (Hm x y) as Hxy.
    repeat case_decide; subst; rewrite ?elem_of_without; naive_solver.
  - intros x. destruct (Hsets x) as [-> ->].
    destruct (Hnd x) as [H1 H2]. destruct (Hnd id) as [H3 _].
    destruct (Hnd (_id req_user)) as [_ H4].
    split; case_decide; subst; try done; by apply NoDup_filter.
Qed.

Lemma follow_graph_updateProfile db req_user name bio location website img :
  follow_graph_ok db →
  follow_graph_ok
    (updateProfile db req_user name bio location website img).1.
Proof.
  unfold updateProfile. destruct (User_findById _ _) as [u|] eqn:Hu; [|done].
  simpl. apply follow_graph_ext; intros x.
  - rewrite followers_of_save. case_decide; [subst|done].
    unfold followers_of. unfold User_findById in Hu. by rewrite Hu.
  - rewrite following_of_save. case_decide; [subst|done].
    unfold following_of. unfold User_findById in Hu. by rewrite Hu.
Qed.

Lemma tweet_routes_keep_users db req_user :
  (∀ id, users (likeTweet db req_user id).1 = users db)
  ∧ (∀ id, users (unlikeTweet db req_user id).1 = users db)
  ∧ (∀ id, users (retweetTweet db req_user id).1 = users db)
  ∧ (∀ id, users (unretweetTweet db req_user id).1 = users db)
  ∧ (∀ id, users (deleteTweet db req_user id).1 = users db)
  ∧ (∀ content replyTo oid now,
       users (createPost db req_user content replyTo oid now).1 = users db).
Proof.
  split; [|split; [|split; [|split; [|split]]]]; intros;
    [unfold likeTweet | unfold unlikeTweet | unfold retweetTweet
    | unfold unretweetTweet | unfold deleteTweet | ]; try by run_handler.
  unfold createPost.
  destruct content as [c|]; [|done].
  destruct (_ || _); [done|]. destruct (280 <? _); [done|].
  assert (∀ db1 r t, users db1 = users db →
            users (match Tweet_insert db1 oid t with
                   | Some db2 => (db2, r db2)
                   | None => (db1, server_error)
                   end).1 = users db) as Hfinish.
  { intros db1 r t H1. unfold Tweet_insert.
    destruct (Tweet.validate t); [|done].
    destruct (tweets db1 !! oid); done. }
  destruct replyTo as [parent|]; [|by apply Hfinish].
  destruct (Tweet_findById db parent); [|done].
  apply Hfinish. by case_bool_decide.
Qed.

Lemma follow_graph_step db db' :
  follow_graph_ok db → step db db' → follow_graph_ok db'.
Proof.
  intros Hok [token r | oid u Hfresh].
  - unfold handle, protect.
    destruct token as [uid|]; [|done].
    destruct (User_findById db uid) as [a|] eqn:Ha; [|done].
    destruct (tweet_routes_keep_users db (MkReqUser uid a))
      as (H1 & H2 & H3 & H4 & H5 & H6).
    destruct r; eauto using follow_graph_same_users, follow_graph_follow,
      follow_graph_unfollow, follow_graph_updateProfile.
  - revert Hok. apply follow_graph_ext; intros x.
    + unfold register. rewrite followers_of_save. case_decide; [subst|done].
      unfold followers_of. by rewrite Hfresh.
    + unfold register. rewrite following_of_save. case_decide; [subst|done].
      unfold following_of. by rewrite Hfresh.
Qed.

End follow_graph_invariant.

(** X6.  A database in which the follow sets mirror each other (A is among
    B's followers exactly when B is among A's followees) and hold no
    duplicate keeps these two properties through every sequence of
    requests and registrations, follow requests with any spelling of the
    target's id included.  (That nobody follows themselves is not kept: a
    follow request naming the requester's own id in another spelling
    stores a self-follow.) *)
Theorem follow_graph_invariant (db db' : Db) :
  follow_graph_ok db → rtc step db db' → follow_graph_ok db'.
Proof.
  intros Hok Hrtc. induction Hrtc; eauto using follow_graph_step.
Qed.

Lemma follow_graph_two_users : follow_graph_ok two_users.
Proof.
  assert (∀ x, followers_of two_users x = [] ∧ following_of two_users x = [])
    as Hempty.
  { intros x. unfold followers_of, following_of. simpl.
    rewrite !lookup_insert, lookup_empty.
    repeat case_decide; done. }
  split.
  - intros a b. destruct (Hempty a) as [_ ->]. destruct (Hempty b) as [-> _].
    set_solver.
  - intros a. destruct (Hempty a) as [-> ->]. split; constructor.
Qed.

Lemma follow_graph_invariant_witness :
  follow_graph_ok
    (handle (handle two_users (Some 1) (PostFollow (MkRouteParam 2 true))).1
       (Some 1) (PostFollow (MkRouteParam 1 false))).1.
Proof.
  apply (follow_graph_invariant two_users).
  - exact follow_graph_two_users.
  - eapply rtc_l; [apply step_handle|]. apply rtc_once. apply step_handle.
Defined.

(** ** Like and retweet sets hold no duplicate *)

Section engagement_invariant.

Implicit Types (db : Db) (req_user : ReqUser).

Local Ltac run_handler :=
  repeat first
    [ progress simpl
    | match goal with
      | |- context [match ?x with _ => _ end] =>
          (is_var x; destruct x) || (destruct x eqn:?)
      end ];
  try done.

Lemma engagement_subset db db' :
  (∀ i t, tweets db' !! i = Some t → tweets db !! i = Some t) →
  engagement_ok db → engagement_ok db'.
Proof. intros Hsub Hok i t Hi. apply (Hok i). by apply Hsub. Qed.

Lemma engagement_same_tweets db db' :
  tweets db' = tweets db → engagement_ok db → engagement_ok db'.
Proof. intros Heq. apply engagement_subset. by rewrite Heq. Qed.

Lemma engagement_save db id t :
  NoDup (Tweet.likes t) → NoDup (Tweet.retweets t) →
  engagement_ok db → engagement_ok (Tweet_save db id t).
Proof.
  intros Hl Hr Hok i t' Hi. unfold Tweet_save in Hi; simpl in Hi.
  apply lookup_insert_Some in Hi as [[<- <-] | [_ Hi]]; [done|].
  by apply (Hok i).
Qed.

Lemma NoDup_push (l : list nat) (x : nat) :
  NoDup l → x ∉ l → NoDup (l ++ [x]).
Proof.
  intros Hl Hx. apply NoDup_app. split; [done|].
  split; [|apply NoDup_singleton].
  intros y Hy ->%list_elem_of_singleton. done.
Qed.

Lemma engagement_likeTweet db req_user id :
  engagement_ok db → engagement_ok (likeTweet db req_user id).1.
Proof.
  intros Hok. unfold likeTweet, Tweet_findById.
  destruct (tweets db !! id) as [t|] eqn:Ht; [|done].
  destruct (includes _ _) eqn:Hin; [done|]. apply includes_false in Hin.
  destruct (Hok id t Ht) as [Hl Hr].
  eapply engagement_same_tweets;
    [|apply (engagement_save db id
               (Tweet.set_likes (Tweet.likes t ++ [_id req_user]) t));
      simpl; auto using NoDup_push].
  simpl. by case_bool_decide.
Qed.

Lemma engagement_retweetTweet db req_user id :
  engagement_ok db → engagement_ok (retweetTweet db req_user id).1.
Proof.
  intros Hok. unfold retweetTweet, Tweet_findById.
  destruct (tweets db !! id) as [t|] eqn:Ht; [|done].
  destruct (includes _ _) eqn:Hin; [done|]. apply includes_false in Hin.
  destruct (Hok id t Ht) as [Hl Hr].
  eapply engagement_same_tweets;
    [|apply (engagement_save db id
               (Tweet.set_retweets (Tweet.retweets t ++ [_id req_user]) t));
      simpl; auto using NoDup_push].
  simpl. by case_bool_decide.
Qed.

Lemma engagement_unlikeTweet db req_user id :
  engagement_ok db → engagement_ok (unlikeTweet db req_user id).1.
Proof.
  intros Hok. unfold unlikeTweet, Tweet_findById.
  destruct (tweets db !! id) as [t|] eqn:Ht; [|done].
  destruct (negb _); [done|]. simpl.
  destruct (Hok id t Ht) as [Hl Hr].
  apply engagement_save; simpl; [by apply NoDup_filter | done | done].
Qed.

Lemma engagement_unretweetTweet db req_user id :
  engagement_ok db → engagement_ok (unretweetTweet db req_user id).1.
Proof.
  intros Hok. unfold unretweetTweet, Tweet_findById.
  destruct (tweets db !! id) as [t|] eqn:Ht; [|done].
  destruct (negb _); [done|]. simpl.
  destruct (Hok id t Ht) as [Hl Hr].
  apply engagement_save; simpl; [done | by apply NoDup_filter | done].
Qed.

Lemma engagement_deleteTweet db req_user id :
  engagement_ok db → engagement_ok (deleteTweet db req_user id).1.
Proof.
  unfold deleteTweet, Tweet_findById.
  destruct (tweets db !! id) as [t|] eqn:Ht; [|done].
  case_bool_decide; [done|]. simpl.
  apply engagement_subset. simpl. intros i x Hi.
  apply map_lookup_filter_Some in Hi as [Hi _].
  by apply lookup_delete_Some in Hi as [_ Hi].
Qed.

Lemma engagement_createPost db req_user content replyTo oid now :
  engagement_ok db →
  engagement_ok (createPost db req_user content replyTo oid now).1.
Proof.
  intros Hok. unfold createPost.
  destruct content as [c|]; [|done].
  destruct (_ || _); [done|]. destruct (280 <? _); [done|].
  assert (∀ db1 r parent, engagement_ok db1 →
            engagement_ok
              (match Tweet_insert db1 oid
                       (Tweet.Doc (_id req_user) c [] [] parent None [] now)
               with
               | Some db2 => (db2, r db2)
               | None => (db1, server_error)
               end).1) as Hfinish.
  { intros db1 r parent H1. unfold Tweet_insert.
    destruct (Tweet.validate _); [|done].
    destruct (tweets db1 !! oid); [done|]. simpl.
    apply engagement_save; simpl; [constructor | constructor | done]. }
  destruct replyTo as [parent|]; [|by apply Hfinish].
  destruct (Tweet_findById db parent); [|done].
  apply Hfinish. by case_bool_decide.
Qed.

Lemma user_routes_keep_tweets db req_user :
  (∀ param, tweets (followRoute db req_user param).1 = tweets db)
  ∧ (∀ id, tweets (unfollow db req_user id).1 = tweets db)
  ∧ (∀ name bio location website img,
       tweets (updateProfile db req_user name bio location website img).1
       = tweets db).
Proof.
  split; [|split]; intros;
    [unfold followRoute, toString_is | unfold unfollow | unfold updateProfile];
    run_handler.
Qed.

Lemma engagement_step db db' :
  engagement_ok db → step db db' → engagement_ok db'.
Proof.
  intros Hok [token r | oid u Hfresh]; [|done].
  unfold handle, protect.
  destruct token as [uid|]; [|done].
  destruct (User_findById db uid) as [a|] eqn:Ha; [|done].
  destruct (user_routes_keep_tweets db (MkReqUser uid a)) as (H1 & H2 & H3).
  destruct r; eauto using engagement_same_tweets, engagement_likeTweet,
    engagement_unlikeTweet, engagement_retweetTweet,
    engagement_unretweetTweet, engagement_deleteTweet,
    engagement_createPost.
Qed.

End engagement_invariant.

(** X7.  A database in which no like set and no retweet set holds a user
    twice keeps this through every sequence of requests and registrations,
    so that likeCount and retweetCount count distinct users. *)
Theorem engagement_invariant (db db' : Db) :
  engagement_ok db → rtc step db db' → engagement_ok db'.
Proof.
  intros Hok Hrtc. induction Hrtc; eauto using engagement_step.
Qed.

Lemma engagement_one_post : engagement_ok one_post.
Proof.
  intros i t Hi. simpl in Hi.
  apply lookup_insert_Some in Hi as [[<- <-] | [_ Hi]]; [|done].
  split; constructor.
Qed.

Lemma engagement_invariant_witness :
  engagement_ok (handle one_post (Some 1) (PostLike 10)).1.
Proof.
  apply (engagement_invariant one_post).
  - exact engagement_one_post.
  - apply rtc_once. apply step_handle.
Defined.

(** ** Posts are rewritten by nobody and deleted by their authors *)

Section posts_immutable.

Implicit Types (db : Db) (req_user : ReqUser).

Variables (i : nat) (t : Tweet.doc).


Lemma same_post_refl : same_post t t.
Proof. by repeat split. Qed.

Lemma post_kept_ext db1 db2 :
  tweets db2 = tweets db1 → post_kept i t db1 → post_kept i t db2.
Proof. unfold post_kept. by intros ->. Qed.

Lemma post_kept_here db : tweets db !! i = Some t → post_kept i t db.
Proof. intros Hi. exists t. eauto using same_post_refl. Qed.

Lemma post_kept_save db id x :
  tweets db !! i = Some t → (tweets db !! id = Some t → same_post t x) →
  post_kept i t (Tweet_save db id x).
Proof.
  intros Hi Hx. unfold post_kept, Tweet_save; simpl.
  destruct (decide (i = id)) as [->|Hne].
  - exists x. rewrite lookup_insert_eq. auto.
  - exists t. rewrite lookup_insert_ne by done. eauto using same_post_refl.
Qed.

Lemma post_kept_like db req_user id :
  tweets db !! i = Some t → post_kept i t (likeTweet db req_user id).1.
Proof.
  intros Hi. unfold likeTweet, Tweet_findById.
  destruct (tweets db !! id) as [x|] eqn:Hx; [|by apply post_kept_here].
  destruct (includes _ _); [by apply post_kept_here|].
  eapply (post_kept_ext
            (Tweet_save db id
               (Tweet.set_likes (Tweet.likes x ++ [_id req_user]) x)));
    [simpl; by case_bool_decide|].
  apply post_kept_save; [done|]. intros Hid. rewrite Hx in Hid.
  injection Hid as ->. by repeat split.
Qed.

Lemma post_kept_retweet db req_user id :
  tweets db !! i = Some t → post_kept i t (retweetTweet db req_user id).1.
Proof.
  intros Hi. unfold retweetTweet, Tweet_findById.
  destruct (tweets db !! id) as [x|] eqn:Hx; [|by apply post_kept_here].
  destruct (includes _ _); [by apply post_kept_here|].
  eapply (post_kept_ext
            (Tweet_save db id
               (Tweet.set_retweets (Tweet.retweets x ++ [_id req_user]) x)));
    [simpl; by case_bool_decide|].
  apply post_kept_save; [done|]. intros Hid. rewrite Hx in Hid.
  injection Hid as ->. by repeat split.
Qed.

Lemma post_kept_unlike db req_user id :
  tweets db !! i = Some t → post_kept i t (unlikeTweet db req_user id).1.
Proof.
  intros Hi. unfold unlikeTweet, Tweet_findById.
  destruct (tweets db !! id) as [x|] eqn:Hx; [|by apply post_kept_here].
  destruct (negb _); [by apply post_kept_here|]. simpl.
  apply post_kept_save; [done|]. intros Hid. rewrite Hx in Hid.
  injection Hid as ->. by repeat split.
Qed.

Lemma post_kept_unretweet db req_user id :
  tweets db !! i = Some t → post_kept i t (unretweetTweet db req_user id).1.
Proof.
  intros Hi. unfold unretweetTweet, Tweet_findById.
  destruct (tweets db !! id) as [x|] eqn:Hx; [|by apply post_kept_here].
  destruct (negb _); [by apply post_kept_here|]. simpl.
  apply post_kept_save; [done|]. intros Hid. rewrite Hx in Hid.
  injection Hid as ->. by repeat split.
Qed.

Lemma post_kept_createPost db req_user content replyTo oid now :
  tweets db !! i = Some t →
  post_kept i t (createPost db req_user content replyTo oid now).1.
Proof.
  intros Hi. unfold createPost.
  destruct content as [c|]; [|by apply post_kept_here].
  destruct (_ || _); [by apply post_kept_here|].
  destruct (280 <? _); [by apply post_kept_here|].
  assert (∀ db1 r x, tweets db1 = tweets db →
            post_kept i t
              (match Tweet_insert db1 oid x with
               | Some db2 => (db2, r db2)
               | None => (db1, server_error)
               end).1) as Hfinish.
  { intros db1 r x H1.
    assert (tweets db1 !! i = Some t) as Hi1 by (by rewrite H1).
    unfold Tweet_insert.
    destruct (Tweet.validate x); [|by apply post_kept_here].
    destruct (tweets db1 !! oid) eqn:Ho; [by apply post_kept_here|]. simpl.
    apply post_kept_save; [done|]. intros Ho'. congruence. }
  destruct replyTo as [parent|]; [|by apply Hfinish].
  destruct (Tweet_findById db parent); [|by apply post_kept_here].
  apply Hfinish. by case_bool_decide.
Qed.

Lemma post_kept_or_deleted db req_user id :
  tweets db !! i = Some t →
  post_kept i t (deleteTweet db req_user id).1
  ∨ (tweets (deleteTweet db req_user id).1 !! i = None
     ∧ ∃ p, tweets db !! id = Some p ∧ Tweet.user p = _id req_user
         ∧ (i = id ∨ Tweet.replyTo t = Some id)).
Proof.
  intros Hi.
  destruct (tweets db !! id) as [p|] eqn:Hp; last first.
  { left. rewrite deleteTweet_missing by done. by apply post_kept_here. }
  destruct (decide (Tweet.user p = _id req_user)) as [Hown|Hother];
    last first.
  { left. rewrite (deleteTweet_not_owner db req_user id p) by done.
    by apply post_kept_here. }
  pose proof (deleteTweet_tweets db req_user id p i t Hp Hown) as Hiff.
  destruct (decide (i = id)) as [->|Hne].
  { right. split; [|eauto].
    apply eq_None_not_Some. intros [y Hy].
    apply (deleteTweet_tweets db req_user id p id y Hp Hown) in Hy.
    naive_solver. }
  destruct (decide (Tweet.replyTo t = Some id)) as [Hreply|Hno].
  { right. split; [|eauto].
    apply eq_None_not_Some. intros [y Hy].
    apply (deleteTweet_tweets db req_user id p i y Hp Hown) in Hy.
    destruct Hy as (Hy & _ & Hr). rewrite Hi in Hy. injection Hy as <-.
    done. }
  left. exists t. split; [|apply same_post_refl]. by apply Hiff.
Qed.

End posts_immutable.

(** X8.  Whatever the request, a stored post either stays stored with the
    same author, content, replyTo, retweetData, media and creation time, or
    it is gone, and then the request was a delete, by an authenticated
    user, of a post that this user wrote and that is the post itself or
    the post it replies to. *)
Theorem posts_are_kept_or_deleted_by_author
    (db : Db) (token : option nat) (r : Request) (i : nat) (t : Tweet.doc) :
  tweets db !! i = Some t →
  post_kept i t (handle db token r).1
  ∨ (tweets (handle db token r).1 !! i = None
     ∧ ∃ uid id p, token = Some uid ∧ r = DeleteTweet id
         ∧ tweets db !! id = Some p ∧ Tweet.user p = uid
         ∧ (i = id ∨ Tweet.replyTo t = Some id)).
Proof.
  intros Hi. unfold handle, protect.
  destruct token as [uid|]; [|left; by apply post_kept_here].
  destruct (User_findById db uid) as [a|] eqn:Ha;
    [|left; by apply post_kept_here].
  destruct (user_routes_keep_tweets db (MkReqUser uid a)) as (H1 & H2 & H3).
  destruct r;
    try (left;
         first [ by apply post_kept_createPost | by apply post_kept_like
               | by apply post_kept_unlike | by apply post_kept_retweet
               | by apply post_kept_unretweet
               | by (eapply post_kept_ext; [|by apply post_kept_here];
                     auto) ]).
  destruct (post_kept_or_deleted i t db (MkReqUser uid a) id Hi)
    as [Hkept | (Hgone & p & Hp & Hown & Hwhich)]; [by left|].
  right. split; [done|]. exists uid, id, p. done.
Qed.

Lemma posts_are_kept_or_deleted_by_author_witness :
  post_kept 11 hello_reply (handle thread (Some 1) (PostLike 11)).1
  ∨ (tweets (handle thread (Some 1) (PostLike 11)).1 !! 11 = None
     ∧ ∃ uid id p, Some 1 = Some uid ∧ PostLike 11 = DeleteTweet id
         ∧ tweets thread !! id = Some p ∧ Tweet.user p = uid
         ∧ (11 = id ∨ Tweet.replyTo hello_reply = Some id)).
Proof.
  apply (posts_are_kept_or_deleted_by_author thread (Some 1) (PostLike 11) 11
           hello_reply).
  reflexivity.
Defined.

(** ** Accounts are kept, and rewritten only by their owners *)

Section accounts.

Implicit Types (db : Db) (req_user : ReqUser).

Variables (i : nat) (u : User.doc).

Lemma account_kept_here db :
  users db !! i = Some u →
  ∃ u', users db !! i = Some u' ∧ same_identity u u' ∧ same_profile u u'.
Proof. intros Hi. exists u. by repeat split. Qed.

Lemma account_kept_ext db1 db2 :
  users db2 = users db1 →
  (∃ u', users db1 !! i = Some u' ∧ same_identity u u' ∧ same_profile u u') →
  ∃ u', users db2 !! i = Some u' ∧ same_identity u u' ∧ same_profile u u'.
Proof. by intros ->. Qed.

(** Saving a document that differs from the stored one in its follow sets
    only. *)
Lemma account_kept_save db k x y :
  users db !! k = Some x →
  same_identity x y → same_profile x y →
  (∃ u', users db !! i = Some u' ∧ same_identity u u' ∧ same_profile u u') →
  ∃ u', users (User_save db k y) !! i = Some u'
    ∧ same_identity u u' ∧ same_profile u u'.
Proof.
  intros Hk Hid Hpr (u' & Hi & Hid' & Hpr'). unfold User_save; simpl.
  destruct (decide (i = k)) as [->|Hne].
  - exists y. rewrite lookup_insert_eq. rewrite Hk in Hi. injection Hi as <-.
    unfold same_identity, same_profile in *. split; [done|].
    split; intuition congruence.
  - exists u'. by rewrite lookup_insert_ne.
Qed.

Lemma account_kept_follow db req_user param :
  users db !! i = Some u →
  ∃ u', users (followRoute db req_user param).1 !! i = Some u'
    ∧ same_identity u u' ∧ same_profile u u'.
Proof.
  intros Hi. unfold followRoute, User_findById.
  destruct (users db !! casts_to param) as [b|] eqn:Hb;
    [|by apply account_kept_here].
  destruct (includes _ _); [by apply account_kept_here|].
  destruct (toString_is _ _); [by apply account_kept_here|].
  cbv zeta.
  set (db1 := User_save db (casts_to param) _).
  assert (∃ u', users db1 !! i = Some u'
            ∧ same_identity u u' ∧ same_profile u u') as H1.
  { apply (account_kept_save db (casts_to param) b
             (User.set_followers (User.followers b ++ [_id req_user]) b));
      [done | by repeat split..|].
    by apply account_kept_here. }
  destruct (users db1 !! _id req_user) as [a|] eqn:Ha; [|done].
  eapply account_kept_ext; last first.
  { apply (account_kept_save db1 (_id req_user) a
             (User.set_following (User.following a ++ [casts_to param]) a));
      try done; by repeat split. }
  reflexivity.
Qed.

Lemma account_kept_unfollow db req_user id :
  users db !! i = Some u →
  ∃ u', users (unfollow db req_user id).1 !! i = Some u'
    ∧ same_identity u u' ∧ same_profile u u'.
Proof.
  intros Hi. unfold unfollow, User_findById.
  destruct (users db !! id) as [b|] eqn:Hb; [|by apply account_kept_here].
  destruct (negb _); [by apply account_kept_here|].
  set (db1 := User_save db id _).
  assert (∃ u', users db1 !! i = Some u'
            ∧ same_identity u u' ∧ same_profile u u') as H1.
  { apply (account_kept_save db id b
             (User.set_followers
                (without (_id req_user) (User.followers b)) b));
      [done | by repeat split..|].
    by apply account_kept_here. }
  destruct (users db1 !! _id req_user) as [a|] eqn:Ha; [|done].
  apply (account_kept_save db1 (_id req_user) a
           (User.set_following (without id (User.following a)) a));
    try done; by repeat split.
Qed.

Lemma account_kept_updateProfile db req_user name bio location website img :
  users db !! i = Some u →
  ∃ u', users (updateProfile db req_user name bio location website img).1
          !! i = Some u'
    ∧ same_identity u u' ∧ (same_profile u u' ∨ _id req_user = i).
Proof.
  intros Hi. unfold updateProfile, User_findById.
  destruct (users db !! _id req_user) as [a|] eqn:Ha; last first.
  { exists u. split; [done|]. split; [by repeat split|]. left.
    by repeat split. }
  simpl. destruct (decide (i = _id req_user)) as [->|Hne].
  - eexists. rewrite lookup_insert_eq. split; [reflexivity|].
    rewrite Ha in Hi. injection Hi as ->. split; [by repeat split | by right].
  - exists u. rewrite lookup_insert_ne by done. split; [done|].
    split; [by repeat split|]. left. by repeat split.
Qed.

End accounts.

(** X9.  Whatever the request, a stored user stays stored with the same
    username, email, password and creation time; the name, bio, location,
    website and profile image stay the same too unless the request is a
    profile update sent by that very user. *)
Theorem accounts_are_kept
    (db : Db) (token : option nat) (r : Request) (i : nat) (u : User.doc) :
  users db !! i = Some u →
  ∃ u', users (handle db token r).1 !! i = Some u'
    ∧ same_identity u u'
    ∧ (same_profile u u'
       ∨ (token = Some i
          ∧ ∃ name bio location website img,
              r = PutProfile name bio location website img)).
Proof.
  intros Hi.
  assert (∀ db',
            (∃ u', users db' !! i = Some u'
               ∧ same_identity u u' ∧ same_profile u u') →
            ∃ u', users db' !! i = Some u' ∧ same_identity u u'
              ∧ (same_profile u u'
                 ∨ (token = Some i
                    ∧ ∃ name bio location website img,
                        r = PutProfile name bio location website img)))
    as Hweak.
  { intros db' (u' & H1 & H2 & H3). exists u'. auto. }
  unfold handle, protect.
  destruct token as [uid|]; [|by apply Hweak, account_kept_here].
  destruct (User_findById db uid) as [a|] eqn:Ha;
    [|by apply Hweak, account_kept_here].
  destruct (tweet_routes_keep_users db (MkReqUser uid a))
    as (H1 & H2 & H3 & H4 & H5 & H6).
  destruct r;
    try (apply Hweak;
         first [ by apply account_kept_follow
               | by apply account_kept_unfollow
               | by (eapply account_kept_ext;
                     [|by apply account_kept_here]; auto) ]).
  destruct (account_kept_updateProfile i u db (MkReqUser uid a) name bio
              location website profileImage Hi)
    as (u' & Hu' & Hid & [Hpr | Hself]).
  - exists u'. auto.
  - exists u'. split; [done|]. split; [done|]. right. simpl in Hself.
    subst. eauto 10.
Qed.

Lemma accounts_are_kept_witness :
  ∃ u', users (handle two_users (Some 1)
                 (PutProfile (Some "Al") None None None None)).1 !! 2
        = Some u'
    ∧ same_identity bob u'
    ∧ (same_profile bob u'
       ∨ (Some 1 = Some 2
          ∧ ∃ name bio location website img,
              PutProfile (Some "Al") None None None None
              = PutProfile name bio location website img)).
Proof.
  apply (accounts_are_kept two_users (Some 1)
           (PutProfile (Some "Al") None None None None) 2 bob).
  reflexivity.
Defined.

(** ** The public listings *)

Section listings.

Implicit Types (db : Db) (req_user : option ReqUser).

Lemma formatted_decorated_ref db (viewer : option nat) liked retweeted
    (ref : nat * Tweet.doc → option nat) (posts : list (nat * Tweet.doc)) :
  (∀ t, liked t = viewer_in viewer (Tweet.likes t)) →
  (∀ t, retweeted t = viewer_in viewer (Tweet.retweets t)) →
  Forall2 (λ d f, decorated db viewer d f ∧ f_replyTo f = ref d) posts
    (with_replyCounts db
       (map (λ d, format db liked retweeted (ref d) d) posts)).
Proof.
  intros Hl Hr. unfold with_replyCounts.
  induction posts as [|d posts IH]; simpl; constructor; [|done].
  unfold decorated; simpl.
  rewrite Tweet_countDocuments_replies, Hl, Hr. done.
Qed.

Lemma getReplies_answer db req_user id :
  ∃ posts fl,
    getReplies db req_user id = Json 200 (TweetList fl)
    ∧ feed_of db (λ _ t, Tweet.replyTo t = Some id) None posts
    ∧ Forall2 (λ d f, decorated db (_id <$> req_user) d f
                      ∧ f_replyTo f = Some id) posts fl.
Proof.
  unfold getReplies. eexists _, _. split; [reflexivity|]. split; last first.
  { apply (formatted_decorated_ref db (_id <$> req_user) _ _
             (λ _, Some id));
      intros t; apply viewer_flag_in. }
  eapply feed_of_weaken; [|apply sorted_query]. intros i t.
  cbv beta. cbn [snd]. by rewrite bool_decide_eq_true.
Qed.

End listings.

(** X10.  The explore route answers 200, with or without a viewer, with
    the decorated feed of all the stored top-level posts: newest first,
    none twice, at most 50, a top-level post being left out only when 50
    at least as new ones are listed. *)
Theorem explore_feed (db : Db) (req_user : option ReqUser) :
  ∃ posts fl,
    explore db req_user = Json 200 (TweetList fl)
    ∧ feed_of db (λ _ t, Tweet.replyTo t = None) (Some 50) posts
    ∧ Forall2 (decorated db (_id <$> req_user)) posts fl.
Proof.
  unfold explore. eexists _, _. split; [reflexivity|]. split; last first.
  { apply formatted_decorated; intros t; apply viewer_flag_in. }
  eapply feed_of_weaken; [|apply limited_query]. intros i t.
  cbv beta. cbn [snd]. by rewrite bool_decide_eq_true.
Qed.

(** X11.  The replies route never answers 404: for any id, stored or not,
    it answers 200 with the decorated list of all the stored posts whose
    replyTo is the id, newest first and without cap, each entry carrying
    the id as its replyTo reference. *)
Theorem replies_feed (db : Db) (req_user : option ReqUser) (id : nat) :
  ∃ posts fl,
    getReplies db req_user id = Json 200 (TweetList fl)
    ∧ feed_of db (λ _ t, Tweet.replyTo t = Some id) None posts
    ∧ (∀ i t, tweets db !! i = Some t → Tweet.replyTo t = Some id →
         (i, t) ∈ posts)
    ∧ Forall2 (λ d f, decorated db (_id <$> req_user) d f
                      ∧ f_replyTo f = Some id) posts fl.
Proof.
  destruct (getReplies_answer db req_user id) as (posts & fl & H1 & H2 & H3).
  exists posts, fl. split; [done|]. split; [done|]. split; [|done].
  intros i t Hi Hr. destruct H2 as (_ & _ & _ & Hall & _).
  destruct (Hall i t Hi Hr) as [? | [? _]]; done.
Qed.

(** X12.  After a successful delete of a post, that post is unknown to
    the single-post route (404), to a second delete (404) and to a like
    (404), and its replies listing is empty. *)
Theorem deleted_post_is_gone
    (db : Db) (req_user : ReqUser) (viewer : option ReqUser) (id : nat)
    (t : Tweet.doc) :
  tweets db !! id = Some t → Tweet.user t = _id req_user →
  let db' := (deleteTweet db req_user id).1 in
  getTweet db' viewer id = Json 404 (Message "Tweet not found")
  ∧ deleteTweet db' req_user id = (db', Json 404 (Message "Tweet not found"))
  ∧ likeTweet db' req_user id = (db', Json 404 (Message "Tweet not found"))
  ∧ getReplies db' viewer id = Json 200 (TweetList []).
Proof.
  intros Ht Hown db'.
  assert (tweets db' !! id = None) as Hgone.
  { apply eq_None_not_Some. intros [y Hy].
    apply (deleteTweet_tweets db req_user id t id y Ht Hown) in Hy.
    naive_solver. }
  split; [unfold getTweet, Tweet_findById; by rewrite Hgone|].
  split; [by apply deleteTweet_missing|].
  split; [unfold likeTweet, Tweet_findById; by rewrite Hgone|].
  destruct (getReplies_answer db' viewer id)
    as (posts & fl & H1 & (_ & _ & Hin & _) & HF).
  rewrite H1. destruct posts as [|d posts].
  { by apply Forall2_nil_inv_l in HF as ->. }
  exfalso. destruct (Hin d) as [Hd Hr]; [by left|].
  apply (deleteTweet_tweets db req_user id t d.1 d.2 Ht Hown) in Hd.
  naive_solver.
Qed.

Lemma deleted_post_is_gone_witness :
  getTweet (deleteTweet thread (MkReqUser 2 bob) 10).1 None 10
  = Json 404 (Message "Tweet not found")
  ∧ getReplies (deleteTweet thread (MkReqUser 2 bob) 10).1 None 10
    = Json 200 (TweetList []).
Proof.
  destruct (deleted_post_is_gone thread (MkReqUser 2 bob) None 10 hello)
    as (H1 & _ & _ & H2).
  - reflexivity.
  - reflexivity.
  - exact (conj H1 H2).
Defined.

(** ** Posts of one user, and single posts *)

Lemma User_findOne_unknown (db : Db) (uname : string) :
  (∀ i x, users db !! i = Some x → User.username x ≠ uname) →
  User_findOne db uname = None.
Proof.
  intros Hnone. unfold User_findOne.
  assert (list_find (λ d : nat * User.doc, User.username d.2 = uname)
            (map_to_list (users db)) = None) as ->; [|done].
  apply list_find_None, Forall_forall. intros [i x] Hin.
  apply elem_of_map_to_list in Hin. simpl. by apply (Hnone i).
Qed.

(** X13.  The route of a user's posts answers 404 when no stored user has
    the username (and so does the profile route).  For a stored user, with
    unique usernames, it answers 200 with all the stored posts written by
    that user, replies included, newest first and without cap, decorated
    for the viewer; the replyTo reference of an entry is the parent when
    the parent is stored and null when it is not. *)
Theorem user_tweets_feed (db : Db) (req_user : option ReqUser) :
  (∀ uname,
     (∀ i x, users db !! i = Some x → User.username x ≠ uname) →
     getUserTweets db req_user uname = Json 404 (Message "User not found")
     ∧ getUserProfile db req_user uname
       = Json 404 (Message "User not found"))
  ∧ (∀ uid u, unique_usernames db → users db !! uid = Some u →
       ∃ posts fl,
         getUserTweets db req_user (User.username u)
         = Json 200 (TweetList fl)
         ∧ feed_of db (λ _ t, Tweet.user t = uid) None posts
         ∧ Forall2 (λ d f, decorated db (_id <$> req_user) d f
                           ∧ f_replyTo f = populate_replyTo db d.2)
             posts fl).
Proof.
  split.
  - intros uname Hnone. unfold getUserTweets, getUserProfile.
    by rewrite (User_findOne_unknown db uname Hnone).
  - intros uid u Huniq Hu. unfold getUserTweets.
    rewrite (User_findOne_unique db uid u Huniq Hu).
    eexists _, _. split; [reflexivity|]. split; last first.
    { apply (formatted_decorated_ref db (_id <$> req_user) _ _
               (λ d, populate_replyTo db d.2));
        intros t; apply viewer_flag_in. }
    eapply feed_of_weaken; [|apply sorted_query]. intros i t.
    cbv beta. cbn [snd].
    rewrite orb_true_iff, andb_true_iff, bool_decide_eq_true. naive_solver.
Qed.

Lemma user_tweets_feed_witness :
  ∃ posts fl,
    getUserTweets thread None "alice" = Json 200 (TweetList fl)
    ∧ feed_of thread (λ _ t, Tweet.user t = 1) None posts
    ∧ Forall2 (λ d f, decorated thread None d f
                      ∧ f_replyTo f = populate_replyTo thread d.2)
        posts fl.
Proof.
  apply (proj2 (user_tweets_feed thread None) 1 alice).
  - exact unique_usernames_two_users.
  - reflexivity.
Defined.

Section created_posts.

Variables (db : Db) (req_user : ReqUser) (c : string) (oid now : nat).
Hypothesis Hcontent : JsString.trim c ≠ EmptyString.
Hypothesis Hlength : String.length c ≤ 280.
Hypothesis Hfresh : tweets db !! oid = None.

Lemma createPost_valid (replyTo : option nat) :
  createPost db req_user (Some c) replyTo oid now
  = match replyTo with
    | None =>
        (Tweet_save db oid (new_post (_id req_user) c now),
         Json 201 (OneTweet (MkFormatted oid c
           (populate_user db (_id req_user)) now 0 0 0 false false None)))
    | Some parent =>
        match tweets db !! parent with
        | None => (db, Json 404 (Message "Original tweet not found"))
        | Some p =>
            let db1 :=
              if bool_decide (Tweet.user p ≠ _id req_user)
              then Notification_create db
                     (Notification.Doc (Tweet.user p) (_id req_user)
                        Notification.reply (Some oid) false
                        (User.name (profile req_user)
                           +:+ " replied to your chirp"))
              else db in
            (Tweet_save db1 oid
               (Tweet.Doc (_id req_user) c [] [] (Some parent) None [] now),
             Json 201 (OneTweet (MkFormatted oid c
               (populate_user db (_id req_user)) now 0 0 0 false false
               (Some parent))))
        end
    end.
Proof.
  unfold createPost.
  assert (JsString.is_empty (JsString.trim c) = false) as He.
  { destruct (JsString.is_empty (JsString.trim c)) eqn:He; [|done].
    by apply is_empty_true in He. }
  pose proof (truthy_trim c He) as Ht. rewrite He, Ht. simpl.
  apply Nat.ltb_ge in Hlength as Hl. rewrite Hl.
  assert (∀ db1 r, tweets db1 = tweets db →
            Tweet_insert db1 oid (Tweet.Doc (_id req_user) c [] [] r None []
                                    now)
            = Some (Tweet_save db1 oid
                      (Tweet.Doc (_id req_user) c [] [] r None [] now)))
    as Hins.
  { intros db1 r H1. unfold Tweet_insert, Tweet.validate. simpl.
    rewrite Ht. simpl. apply Nat.leb_le in Hlength as ->.
    by rewrite H1, Hfresh. }
  destruct replyTo as [parent|]; [|by rewrite Hins].
  unfold Tweet_findById. destruct (tweets db !! parent) as [p|]; [|done].
  case_bool_decide; by rewrite Hins.
Qed.

End created_posts.

(** X14.  A post created with a content that is not blank and has at most
    280 characters, a fresh id and, for a reply, a stored parent, is
    answered with 201 and stored with its content exactly as sent (not
    trimmed); the single-post route then serves it, to any viewer, with
    that content, author and creation time, no like, no retweet, both
    flags false and the parent as replyTo reference. *)
Theorem created_post_is_served
    (db : Db) (req_user : ReqUser) (viewer : option ReqUser) (c : string)
    (replyTo : option nat) (oid now : nat) :
  JsString.trim c ≠ EmptyString → String.length c ≤ 280 →
  tweets db !! oid = None →
  (∀ parent, replyTo = Some parent → is_Some (tweets db !! parent)) →
  let r := createPost db req_user (Some c) replyTo oid now in
  status r.2 = 201
  ∧ tweets r.1 !! oid
    = Some (Tweet.Doc (_id req_user) c [] [] replyTo None [] now)
  ∧ ∃ f, getTweet r.1 viewer oid = Json 200 (OneTweet f)
      ∧ f_id f = oid ∧ f_content f = c ∧ f_createdAt f = now
      ∧ f_user f = populate_user db (_id req_user)
      ∧ likeCount f = 0 ∧ retweetCount f = 0
      ∧ isLiked f = false ∧ isRetweeted f = false
      ∧ f_replyTo f = replyTo
      ∧ replyCount f = replies_count r.1 oid.
Proof.
  intros Hc Hl Hfresh Hparent r. subst r.
  rewrite (createPost_valid db req_user c oid now Hc Hl Hfresh).
  assert (viewer_flag viewer [] = false) as Hflag.
  { destruct viewer; [|done]. simpl.
    apply includes_false, not_elem_of_nil. }
  destruct replyTo as [parent|].
  - destruct (Hparent parent eq_refl) as [p Hp]. rewrite Hp.
    assert (parent ≠ oid) as Hne by congruence.
    cbv zeta. cbn [fst snd status].
    split; [done|]. split.
    { simpl. apply lookup_insert_eq. }
    unfold getTweet, Tweet_findById. simpl tweets.
    rewrite lookup_insert_eq. eexists. split; [reflexivity|]. simpl.
    rewrite Tweet_countDocuments_replies.
    rewrite Hflag.
    unfold populate_replyTo, Tweet_findById. simpl.
    rewrite lookup_insert_ne by done.
    assert (tweets (if bool_decide (Tweet.user p ≠ _id req_user)
                    then Notification_create db
                           (Notification.Doc (Tweet.user p) (_id req_user)
                              Notification.reply (Some oid) false
                              (User.name (profile req_user)
                                 +:+ " replied to your chirp"))
                    else db) = tweets db) as -> by (by case_bool_decide).
    rewrite Hp. repeat split; try done.
    unfold populate_user, User_findById. by case_bool_decide.
  - cbn [fst snd status]. split; [done|]. split.
    { simpl. apply lookup_insert_eq. }
    unfold getTweet, Tweet_findById. simpl tweets.
    rewrite lookup_insert_eq. eexists. split; [reflexivity|]. simpl.
    rewrite Tweet_countDocuments_replies.
    rewrite Hflag. done.
Qed.

Lemma created_post_is_served_witness :
  status (createPost one_post (MkReqUser 1 alice) (Some " hi Bob ")
            (Some 10) 11 101).2 = 201
  ∧ tweets (createPost one_post (MkReqUser 1 alice) (Some " hi Bob ")
              (Some 10) 11 101).1 !! 11
    = Some (Tweet.Doc 1 " hi Bob " [] [] (Some 10) None [] 101).
Proof.
  destruct (created_post_is_served one_post (MkReqUser 1 alice) None
              " hi Bob " (Some 10) 11 101) as (H1 & H2 & _).
  - vm_compute. discriminate.
  - vm_compute. lia.
  - reflexivity.
  - intros parent [= <-]. by eexists.
  - exact (conj H1 H2).
Defined.

(** X15.  A successful reply raises the reply count of its parent by one
    and leaves every other reply count and the parent itself as they were;
    it stores one "reply" notification, whose related post is the reply
    (not the parent), for the parent's author when the author is someone
    else, and none when the author replies to their own post. *)
Theorem reply_effects
    (db : Db) (req_user : ReqUser) (c : string) (parent oid now : nat)
    (p : Tweet.doc) :
  JsString.trim c ≠ EmptyString → String.length c ≤ 280 →
  tweets db !! oid = None → tweets db !! parent = Some p →
  let db' := (createPost db req_user (Some c) (Some parent) oid now).1 in
  replies_count db' parent = S (replies_count db parent)
  ∧ (∀ other, other ≠ parent →
       replies_count db' other = replies_count db other)
  ∧ tweets db' !! parent = Some p
  ∧ notifications db'
    = (if bool_decide (Tweet.user p ≠ _id req_user)
       then notifications db
            ++ [Notification.Doc (Tweet.user p) (_id req_user)
                  Notification.reply (Some oid) false
                  (User.name (profile req_user) +:+ " replied to your chirp")]
       else notifications db).
Proof.
  intros Hc Hl Hfresh Hp db'. subst db'.
  rewrite (createPost_valid db req_user c oid now Hc Hl Hfresh), Hp.
  cbv zeta. cbn [fst].
  set (db1 := if bool_decide (Tweet.user p ≠ _id req_user) then _ else db).
  assert (tweets db1 = tweets db) as Ht by (subst db1; by case_bool_decide).
  assert (parent ≠ oid) as Hne by congruence.
  unfold replies_count. simpl. rewrite Ht.
  split; [|split; [|split]].
  - rewrite map_filter_insert_True by done.
    rewrite map_size_insert_None; [done|].
    apply map_lookup_filter_None_2. by left.
  - intros other Hother. rewrite map_filter_insert_not'; [done| |].
    + simpl. congruence.
    + intros y Hy. congruence.
  - by rewrite lookup_insert_ne.
  - subst db1. by case_bool_decide.
Qed.

Lemma reply_effects_witness :
  replies_count (createPost one_post (MkReqUser 1 alice) (Some "hi Bob")
                   (Some 10) 11 101).1 10
  = S (replies_count one_post 10).
Proof.
  apply (reply_effects one_post (MkReqUser 1 alice) "hi Bob" 10 11 101 hello).
  - vm_compute. discriminate.
  - vm_compute. lia.
  - reflexivity.
  - reflexivity.
Defined.

(** X16.  After a successful like, the single-post route shows the post
    to the liker with isLiked true and a likeCount one higher, the retweet
    count and flag being as before; and exactly one "like" notification
    for the author has been stored when the author is someone else, none
    when the author likes their own post. *)
Theorem like_is_visible
    (db : Db) (req_user : ReqUser) (id : nat) (t : Tweet.doc) :
  tweets db !! id = Some t → _id req_user ∉ Tweet.likes t →
  let db' := (likeTweet db req_user id).1 in
  (∃ f, getTweet db' (Some req_user) id = Json 200 (OneTweet f)
     ∧ isLiked f = true
     ∧ likeCount f = S (length (Tweet.likes t))
     ∧ retweetCount f = length (Tweet.retweets t)
     ∧ isRetweeted f = includes (Tweet.retweets t) (_id req_user))
  ∧ notifications db'
    = (if bool_decide (Tweet.user t ≠ _id req_user)
       then notifications db
            ++ [Notification.Doc (Tweet.user t) (_id req_user)
                  Notification.like (Some id) false
                  (User.name (profile req_user) +:+ " liked your chirp")]
       else notifications db).
Proof.
  intros Ht Hn db'. subst db'. unfold likeTweet, Tweet_findById.
  rewrite Ht. apply includes_false in Hn as Hn'. rewrite Hn'.
  cbv zeta. cbn [fst Tweet.user Tweet.set_likes].
  split; [|by case_bool_decide].
  unfold getTweet, Tweet_findById.
  assert (∀ n, tweets (if bool_decide (Tweet.user t ≠ _id req_user)
                       then Notification_create
                              (Tweet_save db id
                                 (Tweet.set_likes
                                    (Tweet.likes t ++ [_id req_user]) t)) n
                       else Tweet_save db id
                              (Tweet.set_likes
                                 (Tweet.likes t ++ [_id req_user]) t))
               !! id
               = Some (Tweet.set_likes (Tweet.likes t ++ [_id req_user]) t))
    as Hl.
  { intros n. case_bool_decide; simpl; apply lookup_insert_eq. }
  rewrite Hl. eexists. split; [reflexivity|]. simpl.
  rewrite length_app. simpl. repeat split; try done; [|lia].
  apply includes_true. set_solver.
Qed.

Lemma like_is_visible_witness :
  ∃ f, getTweet (likeTweet one_post (MkReqUser 1 alice) 10).1
         (Some (MkReqUser 1 alice)) 10 = Json 200 (OneTweet f)
    ∧ isLiked f = true
    ∧ likeCount f = 1.
Proof.
  destruct (like_is_visible one_post (MkReqUser 1 alice) 10 hello)
    as ((f & Hf & Hliked & Hcount & _) & _).
  - reflexivity.
  - simpl. apply not_elem_of_nil.
  - exists f. exact (conj Hf (conj Hliked Hcount)).
Defined.

(** X17.  After A has successfully followed B, A's timeline is the
    decorated feed of the stored top-level posts written by A, by B or by
    a user that A followed already: the posts of B are wanted from then
    on. *)
Theorem followee_posts_reach_timeline
    (db : Db) (req_user : ReqUser) (id : nat) (a b : User.doc) :
  _id req_user ≠ id →
  users db !! (_id req_user) = Some a →
  users db !! id = Some b →
  _id req_user ∉ User.followers b →
  let db' := (follow db req_user id).1 in
  tweets db' = tweets db
  ∧ ∃ posts fl,
      timeline db' req_user = Json 200 (TweetList fl)
      ∧ feed_of db'
          (λ _ t, (Tweet.user t = _id req_user ∨ Tweet.user t = id
                   ∨ Tweet.user t ∈ User.following a)
                  ∧ Tweet.replyTo t = None)
          (Some 50) posts
      ∧ Forall2 (decorated db' (Some (_id req_user))) posts fl.
Proof.
  intros Hne Ha Hb Hn db'. subst db'.
  destruct (follow_ok db req_user id a b Hne Ha Hb Hn)
    as (db1 & H1 & Hu & Ht).
  rewrite H1. cbn [fst]. split; [done|].
  unfold timeline, User_findById. rewrite Hu, lookup_insert_eq.
  eexists _, _. split; [reflexivity|]. split; last first.
  { by apply formatted_decorated. }
  eapply feed_of_weaken; [|apply limited_query]. intros i t.
  cbv beta. cbn [snd User.following User.set_following].
  rewrite andb_true_iff, includes_true, bool_decide_eq_true.
  rewrite !elem_of_app, !list_elem_of_singleton. naive_solver.
Qed.

Lemma followee_posts_reach_timeline_witness :
  ∃ posts fl,
    timeline (follow one_post (MkReqUser 1 alice) 2).1 (MkReqUser 1 alice)
    = Json 200 (TweetList fl)
    ∧ feed_of (follow one_post (MkReqUser 1 alice) 2).1
        (λ _ t, (Tweet.user t = 1 ∨ Tweet.user t = 2
                 ∨ Tweet.user t ∈ User.following alice)
                ∧ Tweet.replyTo t = None)
        (Some 50) posts
    ∧ Forall2 (decorated (follow one_post (MkReqUser 1 alice) 2).1 (Some 1))
        posts fl.
Proof.
  apply (followee_posts_reach_timeline one_post (MkReqUser 1 alice) 2 alice
           bob).
  - simpl. lia.
  - reflexivity.
  - reflexivity.
  - simpl. apply not_elem_of_nil.
Defined.

(** ** Suggestions *)

(** X18.  For a stored requester, the suggestions handler answers at most
    five accounts, all different, each a stored user with its name,
    username and profile image, none of them the requester or someone the
    requester follows; when fewer than five are answered, every stored
    user who is neither the requester nor followed is among them.  With a
    requester who is not stored the answer is 500. *)
Theorem suggestions_are_unfollowed_accounts (db : Db) (req_user : ReqUser) :
  (users db !! (_id req_user) = None →
   getSuggestions db req_user = Fail server_error)
  ∧ (∀ a, users db !! (_id req_user) = Some a →
       ∃ l, getSuggestions db req_user = Ok l
         ∧ length l ≤ 5
         ∧ NoDup (p_id <$> l)
         ∧ (∀ s, s ∈ l →
              p_id s ≠ _id req_user ∧ p_id s ∉ User.following a
              ∧ ∃ u, users db !! p_id s = Some u
                  ∧ p_name s = User.name u
                  ∧ p_username s = User.username u
                  ∧ p_profileImage s = User.profileImage u)
         ∧ (length l < 5 →
            ∀ i u, users db !! i = Some u → i ≠ _id req_user →
              i ∉ User.following a → i ∈ p_id <$> l)).
Proof.
  split.
  { intros H. unfold getSuggestions, User_findById. by rewrite H. }
  intros a Ha. unfold getSuggestions, User_findById. rewrite Ha.
  set (P := λ d : nat * User.doc, d.1 ∉ User.following a ++ [_id req_user]).
  set (F := filter P (map_to_list (users db))).
  set (sel := λ d : nat * User.doc,
         MkPopulatedUser d.1 (User.name d.2) (User.username d.2)
           (User.profileImage d.2)).
  assert (∀ l : list (nat * User.doc), p_id <$> map sel l = l.*1) as Hids.
  { induction l as [|d l IH]; [done|]. simpl. f_equal. exact IH. }
  assert (∀ (l : list (nat * User.doc)) s,
            s ∈ map sel l ↔ ∃ d, d ∈ l ∧ s = sel d) as Hmap.
  { intros l s. change (map sel l) with (sel <$> l).
    rewrite list_elem_of_fmap. naive_solver. }
  assert (∀ d, d ∈ F ↔ users db !! d.1 = Some d.2 ∧ d.1 ≠ _id req_user
                        ∧ d.1 ∉ User.following a) as HF.
  { intros d. unfold F, P. rewrite list_elem_of_filter, elem_of_map_to_list'.
    rewrite elem_of_app, list_elem_of_singleton. naive_solver. }
  eexists. split; [reflexivity|].
  split; [rewrite length_map; unfold limit; rewrite length_take; lia|].
  split.
  { rewrite Hids. apply (sublist_NoDup _ (map_to_list (users db)).*1).
    - apply NoDup_fst_map_to_list.
    - apply fmap_sublist. etrans; [apply sublist_take | apply sublist_filter]. }
  split.
  - intros s (d & Hd & ->)%Hmap. apply subseteq_take in Hd.
    apply HF in Hd as (Hd & Hne & Hnf). simpl. eauto 10.
  - rewrite length_map. unfold limit. intros Hshort i u Hi Hne Hnf.
    rewrite Hids. rewrite take_ge by (rewrite length_take in Hshort; lia).
    apply list_elem_of_fmap. exists (i, u). split; [done|]. by apply HF.
Qed.

Lemma suggestions_are_unfollowed_accounts_witness :
  ∃ l, getSuggestions two_users (MkReqUser 1 alice) = Ok l
    ∧ length l ≤ 5
    ∧ 2 ∈ p_id <$> l.
Proof.
  destruct (proj2 (suggestions_are_unfollowed_accounts two_users
                     (MkReqUser 1 alice)) alice eq_refl)
    as (l & Hl & Hlen & _ & _ & Hall).
  exists l. split; [exact Hl|]. split; [exact Hlen|].
  apply (Hall ltac:(injection Hl as <-; vm_compute; lia) 2 bob).
  - reflexivity.
  - simpl. lia.
  - simpl. apply not_elem_of_nil.
Defined.

(** ** Notifications marked as read *)

(** X19.  Marking all as read answers 200, leaves users and posts alone,
    keeps every notification in place with its recipient, sender, kind,
    related post and message, and makes read exactly those addressed to
    the requester, the read flag of the others being as before; doing it
    again changes nothing. *)
Theorem markAllRead_marks_own (db : Db) (req_user : ReqUser) :
  let r := markAllRead db req_user in
  r.2 = Json 200 (Message "All notifications marked as read")
  ∧ users r.1 = users db ∧ tweets r.1 = tweets db
  ∧ Forall2
      (λ n n',
         Notification.recipient n' = Notification.recipient n
         ∧ Notification.sender n' = Notification.sender n
         ∧ Notification.type n' = Notification.type n
         ∧ Notification.tweet n' = Notification.tweet n
         ∧ Notification.message n' = Notification.message n
         ∧ Notification.read n'
           = (Notification.read n
              || bool_decide (Notification.recipient n = _id req_user)))
      (notifications db) (notifications r.1)
  ∧ markAllRead r.1 req_user = r.
Proof.
  intros r. subst r. unfold markAllRead. cbn [fst snd].
  split; [done|]. split; [done|]. split; [done|]. split.
  - simpl. induction (notifications db) as [|n l IH]; simpl; constructor;
      [|done].
    destruct n as [rc sd ty tw rd msg]. simpl.
    case_bool_decide; destruct rd; simpl; done.
  - f_equal. unfold with_notifications. simpl. f_equal.
    induction (notifications db) as [|n l IH]; simpl; [done|].
    f_equal; [|done].
    destruct n as [rc sd ty tw rd msg].
    destruct (decide (rc = _id req_user)) as [Heq|Hne]; destruct rd; simpl;
      rewrite ?(bool_decide_eq_true_2 _ Heq), ?(bool_decide_eq_false_2 _ Hne);
      simpl; rewrite ?(bool_decide_eq_true_2 _ Heq); reflexivity.
Qed.

(** ** Trends *)

Lemma sampleTrends_sorted : StronglySorted busier_first sampleTrends.
Proof. apply (bool_decide_unpack _). vm_compute. reflexivity. Qed.

(** X20.  The trends route never answers an empty list: it answers
    between one and ten entries ordered by tweet count, highest first.
    With no stored trend these are the ten sample trends; otherwise every
    entry is a stored trend, and a stored trend is left out only when ten
    entries with at least its tweet count are listed. *)
Theorem trends_answer (stored : gmap nat Trend.doc) :
  ∃ l, getTrends stored = Ok l
    ∧ 1 ≤ length l ≤ 10
    ∧ StronglySorted busier_first l
    ∧ (stored = ∅ → l = sampleTrends)
    ∧ (stored ≠ ∅ →
       (∀ x, x ∈ l →
          ∃ i d, stored !! i = Some d ∧ trend_id x = inl i
            ∧ trend_hashtag x = Trend.hashtag d
            ∧ trend_tweetCount x = Trend.tweetCount d
            ∧ trend_category x = Trend.category d)
       ∧ (∀ i d, stored !! i = Some d →
            (∃ x, x ∈ l ∧ trend_id x = inl i)
            ∨ (length l = 10
               ∧ ∀ x, x ∈ l → Trend.tweetCount d ≤ trend_tweetCount x))).
Proof.
  unfold getTrends.
  set (L := merge_sort more_tweets_first (map_to_list stored)).
  set (item := λ d : nat * Trend.doc,
         MkTrendItem (inl d.1) (Trend.hashtag d.2) (Trend.tweetCount d.2)
           (Trend.category d.2)).
  assert (Total more_tweets_first) as Htot.
  { intros x y. unfold more_tweets_first. lia. }
  assert (Transitive more_tweets_first) as Htrans.
  { intros x y z. unfold more_tweets_first. lia. }
  assert (L ≡ₚ map_to_list stored) as Hperm by apply merge_sort_Permutation.
  assert (StronglySorted more_tweets_first L) as Hsorted.
  { apply StronglySorted_merge_sort; apply _. }
  assert (StronglySorted more_tweets_first (take 10 L ++ drop 10 L)) as Hs'.
  { by rewrite take_drop. }
  assert (∀ d, d ∈ L ↔ stored !! d.1 = Some d.2) as HL.
  { intros d. by rewrite Hperm, elem_of_map_to_list'. }
  assert (∀ (l : list (nat * Trend.doc)) x,
            x ∈ map item l ↔ ∃ d, d ∈ l ∧ x = item d) as Hmap.
  { intros l x. change (map item l) with (item <$> l).
    rewrite list_elem_of_fmap. naive_solver. }
  unfold limit. destruct (length (take 10 L) =? 0) eqn:Hlen.
  - apply Nat.eqb_eq in Hlen.
    assert (stored = ∅) as Hempty.
    { apply map_to_list_empty_iff. apply Permutation_nil_r. rewrite <- Hperm.
      rewrite length_take in Hlen. destruct L; [done | simpl in Hlen; lia]. }
    eexists. split; [reflexivity|].
    split; [simpl; lia|]. split; [apply sampleTrends_sorted|].
    split; done.
  - apply Nat.eqb_neq in Hlen.
    eexists. split; [reflexivity|]. rewrite length_map.
    split; [rewrite length_take in *; lia|].
    split.
    { change (map item (take 10 L)) with (item <$> take 10 L).
      apply (StronglySorted_fmap _ more_tweets_first); [done|].
      by apply StronglySorted_app_1_l in Hs'. }
    split.
    { intros ->. rewrite map_to_list_empty in Hperm.
      apply Permutation_nil_r in Hperm. rewrite Hperm in Hlen. done. }
    intros _. split.
    + intros x (d & Hd & ->)%Hmap. apply subseteq_take in Hd.
      apply HL in Hd. exists d.1, d.2. done.
    + intros i d Hi. assert ((i, d) ∈ L) as Hd by (by apply HL).
      rewrite <- (take_drop 10 L) in Hd.
      apply elem_of_app in Hd as [Hd | Hd].
      * left. exists (item (i, d)). split; [|done]. apply Hmap. eauto.
      * right. assert (10 ≤ length L) as Hle.
        { destruct (decide (10 ≤ length L)); [done|].
          rewrite drop_ge in Hd by lia. by apply elem_of_nil in Hd. }
        split; [by rewrite length_take_le|].
        intros x (d' & Hd' & ->)%Hmap.
        apply (StronglySorted_app_1_elem_of _ _ _ d' (i, d) Hs' Hd' Hd).
Qed.

Lemma trends_answer_witness :
  ∃ l, getTrends some_trends = Ok l
    ∧ 1 ≤ length l ≤ 10
    ∧ ∃ x, x ∈ l ∧ trend_id x = inl 2.
Proof.
  destruct (trends_answer some_trends)
    as (l & Hl & Hlen & _ & _ & Hstored).
  exists l. split; [exact Hl|]. split; [exact Hlen|].
  destruct Hstored as [_ Hall].
  - intros Hempty.
    assert (some_trends !! 2 = @None Trend.doc) as Hnone
      by (rewrite Hempty; apply lookup_empty).
    vm_compute in Hnone. discriminate Hnone.
  - destruct (Hall 2 (Trend.Doc "#stdpp" 7 "Trending") eq_refl)
      as [Hin | [Hten _]]; [exact Hin|].
    exfalso. injection Hl as <-. vm_compute in Hten. discriminate Hten.
Defined.

(** ** The bearer token *)

Section bearer.

Implicit Types (s t h : string) (sep : ascii).

Lemma split_not_nil sep s : split sep s ≠ [].
Proof.
  destruct s as [|c s]; simpl; [done|].
  case_bool_decide; [done|]. by destruct (split sep s).
Qed.

Lemma split_no_sep sep s : has_char sep s = false → split sep s = [s].
Proof.
  induction s as [|c s IH]; simpl; [done|].
  intros [Hc Hs]%orb_false_iff. rewrite Hc. by rewrite IH.
Qed.

Lemma split_at_sep sep s t :
  has_char sep s = false →
  split sep (s +:+ String sep t) = s :: split sep t.
Proof.
  induction s as [|c s IH]; simpl.
  - intros _. by rewrite bool_decide_eq_true_2.
  - intros [Hc Hs]%orb_false_iff. rewrite Hc. by rewrite IH.
Qed.

Lemma split_pieces sep s :
  Forall (λ x, has_char sep x = false) (split sep s).
Proof.
  induction s as [|c s IH]; simpl; [by repeat constructor|].
  case_bool_decide as Hc; [by constructor|].
  destruct (split sep s) as [|hd tl]; [|inversion_clear IH as [|?? Hhd Htl]].
  - repeat constructor. simpl. by rewrite bool_decide_eq_false_2.
  - constructor; [|done]. simpl. by rewrite bool_decide_eq_false_2.
Qed.

Lemma truthy_true s : JsString.truthy s = true ↔ s ≠ EmptyString.
Proof. destruct s; simpl; split; done. Qed.

End bearer.

(** X21.  The token of a request is read from the authorization header
    as follows.  The header "Bearer " followed by a token that is not
    empty and has no space gives back exactly that token; whenever a token
    is read, it is not empty, has no space, and the header starts with
    "Bearer"; a missing header and a header without space give no token;
    and without a token [protect] answers 401 and does not run the
    handler. *)
Theorem bearer_token_round_trip :
  (∀ t, t ≠ EmptyString → has_char " " t = false →
     bearer_token (Some ("Bearer " +:+ t)) = Some t)
  ∧ (∀ h t, bearer_token h = Some t →
       t ≠ EmptyString ∧ has_char " " t = false
       ∧ ∃ h0, h = Some h0 ∧ starts_with "Bearer" h0 = true)
  ∧ bearer_token None = None
  ∧ (∀ h, has_char " " h = false → bearer_token (Some h) = None)
  ∧ (∀ verify db h next, bearer_token h = None →
       protect_header verify db h next
       = (db, Json 401 (Message "Not authorized to access this route"))).
Proof.
  split; [|split; [|split; [done|split]]].
  - intros t Ht Hsp. unfold bearer_token.
    change ("Bearer " +:+ t) with ("Bearer" +:+ String " " t).
    rewrite (split_at_sep " " "Bearer" t) by done.
    rewrite (split_no_sep " " t Hsp). simpl.
    apply truthy_true in Ht. by rewrite Ht.
  - intros [h0|] t; [|done]. unfold bearer_token.
    destruct (JsString.truthy h0 && starts_with "Bearer" h0) eqn:Hb; [|done].
    apply andb_true_iff in Hb as [_ Hb].
    destruct (split " " h0 !! 1) as [tok|] eqn:Htok; [|done].
    destruct (JsString.truthy tok) eqn:Htr; [|done].
    intros [= <-]. apply truthy_true in Htr. split; [done|].
    split; [|eauto].
    pose proof (split_pieces " " h0) as Hall.
    rewrite Forall_forall in Hall. apply Hall.
    by eapply list_elem_of_lookup_2.
  - intros h Hsp. unfold bearer_token.
    destruct (_ && _); [|done]. by rewrite (split_no_sep " " h Hsp).
  - intros verify db h next Hnone. unfold protect_header.
    by rewrite Hnone.
Qed.

Lemma bearer_token_round_trip_witness :
  bearer_token (Some "Bearer abc.def") = Some "abc.def".
Proof.
  apply (proj1 bearer_token_round_trip "abc.def").
  - discriminate.
  - reflexivity.
Defined.

(** ** The order of the routes *)

(** X22.  No GET path of the users router reaches the suggestions
    handler: the path /suggestions is served by the profile route
    registered before it, with "suggestions" as username, which answers
    404 unless a user of that name is stored.  In the tweets router
    /timeline and /explore are registered before /:id and are served by
    their own handlers. *)
Theorem suggestions_route_is_shadowed :
  (∀ path, dispatch users_get_routes path ≠ Some GetSuggestions)
  ∧ dispatch users_get_routes ["suggestions"] = Some GetProfile
  ∧ (∀ db req_user,
       (∀ i x, users db !! i = Some x → User.username x ≠ "suggestions") →
       getUserProfile db req_user "suggestions"
       = Json 404 (Message "User not found"))
  ∧ dispatch tweets_get_routes ["timeline"] = Some GetTimeline
  ∧ dispatch tweets_get_routes ["explore"] = Some GetExplore
  ∧ (∀ id, JsString.truthy id = true →
       JsString.lower id ≠ "timeline" → JsString.lower id ≠ "explore" →
       dispatch tweets_get_routes [id] = Some GetTweet).
Proof.
  split; [|split; [done|split; [|split; [done|split; [done|]]]]].
  - intros path Hd. unfold dispatch in Hd.
    apply fmap_Some in Hd as ([k r] & Hfind & Heq).
    apply list_find_Some in Hfind as (Hk & HP & Hbefore).
    destruct k as [|[|[|k]]]; simpl in Hk; try discriminate Hk;
      injection Hk as <-; simpl in Heq; try discriminate Heq.
    destruct path as [|s [|s2 path]]; simpl in HP; try discriminate HP;
      [|rewrite andb_false_r in HP; discriminate HP].
    apply (Hbefore 0 ([Param "username"], GetProfile)); [done | lia |].
    simpl. destruct s; [|done]. vm_compute in HP. discriminate HP.
  - intros db req_user Hnone. unfold getUserProfile.
    by rewrite (User_findOne_unknown db "suggestions" Hnone).
  - intros id Hid Ht He. unfold dispatch, tweets_get_routes. simpl.
    rewrite !andb_true_r.
    rewrite decide_False.
    2:{ intros H%bool_decide_eq_true_1. by apply Ht. }
    rewrite decide_False.
    2:{ intros H%bool_decide_eq_true_1. by apply He. }
    rewrite Hid. by rewrite decide_True.
Qed.

Lemma suggestions_route_is_shadowed_witness :
  getUserProfile one_post None "suggestions"
  = Json 404 (Message "User not found").
Proof.
  apply (proj1 (proj2 (proj2 suggestions_route_is_shadowed))).
  intros i x Hi Hname.
  assert (i = 1 ∨ i = 2) as Hwhich.
  { destruct (decide (i = 1)); [by left|]. destruct (decide (i = 2));
      [by right|]. exfalso. simpl in Hi.
    rewrite !lookup_insert_ne, lookup_empty in Hi by done.
    discriminate Hi. }
  destruct Hwhich as [-> | ->]; vm_compute in Hi; injection Hi as <-;
    vm_compute in Hname; discriminate Hname.
Defined.

(** ** Profile updates *)

(** X23.  A profile update by a stored user answers 200 with the updated
    account and stores it: the name is replaced only by a name that is
    present and not empty, each of bio, location, website and profile
    image is replaced by the value sent, also the empty string, and kept
    when none is sent; username, email, password, creation time and the
    follow sets are kept.  Sending the same update again changes nothing
    more.  When the requester is not stored the answer is 404 and the
    database is as before. *)
Theorem updateProfile_effect
    (db : Db) (req_user : ReqUser)
    (name bio location website img : option string) :
  let r := updateProfile db req_user name bio location website img in
  (users db !! (_id req_user) = None →
   r = (db, Json 404 (Message "User not found")))
  ∧ (∀ u, users db !! (_id req_user) = Some u →
       let u' := updated_profile name bio location website img u in
       r.1 = User_save db (_id req_user) u'
       ∧ r.2 = Json 200 (Account (_id req_user) (User.name u')
                           (User.username u') (User.email u')
                           (User.bio u') (User.location u')
                           (User.website u') (User.profileImage u'))
       ∧ same_identity u u'
       ∧ User.followers u' = User.followers u
       ∧ User.following u' = User.following u
       ∧ updateProfile r.1 req_user name bio location website img = r).
Proof.
  intros r. subst r.
  assert (∀ db0 u, users db0 !! (_id req_user) = Some u →
            updateProfile db0 req_user name bio location website img
            = (User_save db0 (_id req_user)
                 (updated_profile name bio location website img u),
               let u' := updated_profile name bio location website img u in
               Json 200 (Account (_id req_user) (User.name u')
                           (User.username u') (User.email u')
                           (User.bio u') (User.location u')
                           (User.website u') (User.profileImage u'))))
    as Hstored.
  { intros db0 u Hu. unfold updateProfile, User_findById. rewrite Hu.
    unfold updated_profile. by destruct name as [[|? ?]|]. }
  split.
  { intros H. unfold updateProfile, User_findById. by rewrite H. }
  intros u Hu u'. rewrite (Hstored db u Hu). cbn [fst snd].
  split; [done|]. split; [done|]. split; [by repeat split|].
  split; [done|]. split; [done|].
  rewrite (Hstored _ u'); [|simpl; apply lookup_insert_eq].
  assert (updated_profile name bio location website img u' = u') as ->.
  { subst u'. unfold updated_profile. simpl.
    destruct name as [[|? ?]|], bio, location, website, img; reflexivity. }
  unfold User_save, with_users. simpl. by rewrite insert_insert_eq.
Qed.

Lemma updateProfile_effect_witness :
  ∃ u', (updateProfile two_users (MkReqUser 1 alice) (Some EmptyString)
           (Some EmptyString) None None None).1
        = User_save two_users 1 u'
    ∧ User.name u' = "Alice"
    ∧ User.bio u' = EmptyString.
Proof.
  destruct (proj2 (updateProfile_effect two_users (MkReqUser 1 alice)
                     (Some EmptyString) (Some EmptyString) None None None)
              alice eq_refl)
    as (Hsave & _).
  eexists. split; [exact Hsave|]. split; reflexivity.
Defined.

Lemma replies_feed_witness :
  ∃ posts fl,
    getReplies thread None 10 = Json 200 (TweetList fl)
    ∧ (11, hello_reply) ∈ posts
    ∧ Forall2 (λ d f, decorated thread None d f ∧ f_replyTo f = Some 10)
        posts fl.
Proof.
  destruct (replies_feed thread None 10) as (posts & fl & H1 & _ & Hall & HF).
  exists posts, fl. split; [exact H1|]. split; [|exact HF].
  apply (Hall 11 hello_reply); reflexivity.
Defined.
